(** * generate_icon.py: the icon renderer and the icon-set driver

    A shallow embedding of [generate_icon.py].  Python integers are [Z],
    Python floats are binary64 primitive floats, exceptions are an error
    monad, the canvas is the image header together with the sequence of
    drawing calls made on it, and the driver runs in a state monad over a
    file system and the standard output. *)

From Stdlib Require Import ZArith Floats Ascii String.
From stdpp Require Import gmap strings list fin_maps pretty.

(* The decimal constants of the script denote their nearest binary64. *)
Set Warnings "-inexact-float".

Local Open Scope Z_scope.

(** ** Python values *)

Module Py.

(** The exceptions the modelled calls can raise. *)
Inductive exn : Type :=
| OverflowError
| ValueError
| ZeroDivisionError
| FileNotFoundError.

Inductive result (A : Type) : Type :=
| Ok (a : A)
| Raise (e : exn).
Arguments Ok {A} a.
Arguments Raise {A} e.

Definition bind {A B} (r : result A) (k : A -> result B) : result B :=
  match r with
  | Ok a => k a
  | Raise e => Raise e
  end.

(** [float(z)]: the nearest binary64, ties to even; an integer too large
    for the format raises. *)
Definition float_of_int (z : Z) : result float :=
  let f := SF2Prim (binary_normalize prec emax z 0 false) in
  if is_infinity f then Raise OverflowError else Ok f.

(** [int(f)]: truncation towards zero; [nan] and the infinities raise. *)
Definition int_of_float (f : float) : result Z :=
  match Prim2SF f with
  | S754_zero _ => Ok 0
  | S754_finite sgn m e =>
      let v := if 0 <=? e then Z.pos m * 2 ^ e else Z.pos m / 2 ^ (- e) in
      Ok (if sgn then - v else v)
  | S754_infinity _ => Raise OverflowError
  | S754_nan => Raise ValueError
  end.

(** A number handed to a library call: Python keeps the dynamic type. *)
Inductive num : Type :=
| Int (z : Z)
| Float (f : float).

(** [str(z)] and the pieces of f-strings. *)
Definition str (z : Z) : string := pretty z.

End Py.

Import Py.

#[global] Instance result_ret : MRet result := fun A a => Ok a.
#[global] Instance result_bind : MBind result := fun A B k r => bind r k.

(** Mixed arithmetic of the source: the integer operand is converted first. *)
Definition int_truediv_float (a : Z) (b : float) : result float :=
  fa ← float_of_int a; Ok (fa / b)%float.

Definition int_truediv_int (a b : Z) : result float :=
  fa ← float_of_int a; fb ← float_of_int b;
  if is_zero fb then Raise ZeroDivisionError else Ok (fa / fb)%float.

Definition int_mul_float (a : Z) (b : float) : result float :=
  fa ← float_of_int a; Ok (fa * b)%float.

Definition float_add_int (a : float) (b : Z) : result float :=
  fb ← float_of_int b; Ok (a + fb)%float.

Definition float_sub_int (a : float) (b : Z) : result float :=
  fb ← float_of_int b; Ok (a - fb)%float.

(** ** Pillow: images and drawing calls *)

Module PIL.

Definition color : Type := Z * Z * Z.
Definition rgba : Type := Z * Z * Z * Z.

(** The bounding box or end points given to a drawing call. *)
Definition box : Type := num * num * num * num.

Inductive shape : Type :=
| RoundedRectangle (xy : box) (radius : Z)
| Ellipse (xy : box)
| Line (xy : box) (width : Z)
| Arc (xy : box) (start stop : Z) (width : Z).

Record draw_call : Type := DrawCall { dc_shape : shape; dc_fill : color }.

(** An image: what [Image.new] fixed, and the calls made on it since, oldest
    first.  [ImageDraw.Draw img] is a handle on the same object, so the
    calls made through the handle are the image's. *)
Record Image : Type := MkImage {
  im_mode : string;
  im_width : Z;
  im_height : Z;
  im_background : rgba;
  im_calls : list draw_call
}.

Definition new (mode : string) (size : Z * Z) (c : rgba) : Image :=
  MkImage mode (fst size) (snd size) c [].

Definition draw (img : Image) (sh : shape) (fill : color) : Image :=
  MkImage (im_mode img) (im_width img) (im_height img) (im_background img)
          (im_calls img ++ [DrawCall sh fill]).

Definition rounded_rectangle (img : Image) (xy : box) (radius : Z) (fill : color) :=
  draw img (RoundedRectangle xy radius) fill.
Definition ellipse (img : Image) (xy : box) (fill : color) :=
  draw img (Ellipse xy) fill.
Definition line (img : Image) (xy : box) (fill : color) (width : Z) :=
  draw img (Line xy width) fill.
Definition arc (img : Image) (xy : box) (start stop : Z) (fill : color) (width : Z) :=
  draw img (Arc xy start stop width) fill.

End PIL.

Import PIL.

(** ** The constants of the script *)

Definition CLAUDE_ORANGE : color := (217, 119, 87).
Definition WHITE : color := (255, 255, 255).

Definition SIZES : list Z := [16; 32; 64; 128; 256; 512; 1024].

(** ** The renderer *)

(** The three arcs of one hemisphere: the [for] loop over the offsets. *)
Fixpoint draw_arcs (img : Image) (offsets : list float)
    (x0 x1 : num) (top_y : float) (brain_height : Z) (i10 : Z)
    (line_color : color) (line_width : Z) : result Image :=
  match offsets with
  | [] => Ok img
  | offset :: rest =>
      yo ← (h ← int_mul_float brain_height offset; int_of_float h);
      y_pos ← float_add_int top_y yo;
      ya ← float_sub_int y_pos i10;
      yb ← float_add_int y_pos i10;
      draw_arcs (arc img (x0, Float ya, x1, Float yb) 0 180 line_color line_width)
                rest x0 x1 top_y brain_height i10 line_color line_width
  end.

Definition draw_brain_icon (img : Image) (size : Z) (color : color) : result Image :=
  s ← int_truediv_float size 100.0;
  cx ← int_truediv_int size 2;
  cy ← int_truediv_int size 2;
  padding ← int_of_float (20 * s);
  let brain_width := size - padding * 2 in
  brain_height ← (w ← int_mul_float brain_width 0.85; int_of_float w);
  i5 ← int_of_float (5 * s);
  top_y ← (t ← float_sub_int cy (brain_height / 2); float_add_int t i5);
  (* left hemisphere *)
  let left_x := padding in
  bottom ← float_add_int top_y brain_height;
  lx1 ← float_add_int cx i5;
  let img := ellipse img (Int left_x, Float top_y, Float lx1, Float bottom) color in
  (* right hemisphere *)
  rx0 ← float_sub_int cx i5;
  let img := ellipse img (Float rx0, Float top_y, Int (size - padding), Float bottom) color in
  (* brain stem *)
  stem_width ← int_of_float (12 * s);
  stem_height ← int_of_float (15 * s);
  i10 ← int_of_float (10 * s);
  sx0 ← float_sub_int cx (stem_width / 2);
  sy0 ← float_sub_int bottom i10;
  sx1 ← float_add_int cx (stem_width / 2);
  sy1 ← float_add_int bottom stem_height;
  let img := ellipse img (Float sx0, Float sy0, Float sx1, Float sy1) color in
  (* folds *)
  let line_color := CLAUDE_ORANGE in
  i2 ← int_of_float (2 * s);
  let line_width := Z.max 1 i2 in
  (* central fissure *)
  fy0 ← float_add_int top_y i10;
  i15 ← int_of_float (15 * s);
  fy1 ← float_sub_int bottom i15;
  let img := line img (Float cx, Float fy0, Float cx, Float fy1) line_color line_width in
  (* left hemisphere curves *)
  img ← draw_arcs img [0.25; 0.5; 0.7]%float (Int (left_x + i5)) (Float rx0)
           top_y brain_height i10 line_color line_width;
  (* right hemisphere curves *)
  draw_arcs img [0.25; 0.5; 0.7]%float (Float lx1) (Int (size - padding - i5))
    top_y brain_height i10 line_color line_width.

Definition corner_radius (size : Z) : result Z :=
  r ← int_mul_float size 0.22; int_of_float r.

(** The canvas [create_icon] has drawn when it reaches [img.save]. *)
Definition create_icon_canvas (size : Z) : result Image :=
  let img := new "RGBA" (size, size) (0, 0, 0, 0) in
  corner_radius ← corner_radius size;
  let img := rounded_rectangle img (Int 0, Int 0, Int (size - 1), Int (size - 1))
               corner_radius CLAUDE_ORANGE in
  draw_brain_icon img size WHITE.


(** ** The operating system: files, directories, standard output *)

Module OS.

(** One record of [Contents.json]. *)
Record entry : Type := Entry {
  filename : string;
  idiom : string;
  scale : string;
  size : string
}.

Record contents : Type := Contents {
  images : list entry;
  info_author : string;
  info_version : Z
}.

Inductive file : Type :=
| Png (img : Image)
| Json (c : contents)
| Data (bytes : string).

Record fs : Type := Fs {
  files : gmap string file;
  dirs : gset string
}.

(** What the process did, oldest first. *)
Inductive event : Type :=
| Print (text : string)
| Makedirs (path : string)
| Save (path : string) (img : Image)
| Dump (path : string) (c : contents)
| Copy (src dst : string)
| Run (argv : list string)
| Rmtree (path : string).

Record world : Type := World {
  disk : fs;
  trace : list event
}.

(** What [subprocess.run] hands back when the command could be started. *)
Record CompletedProcess : Type := Completed {
  returncode : Z;
  stdout : string;
  stderr : string
}.

Definition IO (A : Type) : Type := world -> result A * world.

Definition ret {A} (a : A) : IO A := fun w => (Ok a, w).

Definition bind {A B} (m : IO A) (k : A -> IO B) : IO B :=
  fun w => match m w with
           | (Ok a, w') => k a w'
           | (Raise e, w') => (Raise e, w')
           end.

Definition lift {A} (r : result A) : IO A := fun w => (r, w).

Definition emit (e : event) (w : world) : world :=
  World (disk w) (trace w ++ [e]).

Definition write (path : string) (f : file) (d : fs) : fs :=
  Fs (<[path := f]> (files d)) (dirs d).

(** [posixpath.join] on two components. *)
Definition starts_with_sep (s : string) : bool :=
  match s with
  | String c _ => bool_decide (c = "/"%char)
  | EmptyString => false
  end.

Fixpoint ends_with_sep (s : string) : bool :=
  match s with
  | EmptyString => false
  | String c EmptyString => bool_decide (c = "/"%char)
  | String _ rest => ends_with_sep rest
  end.

Definition join2 (path b : string) : string :=
  if starts_with_sep b then b
  else if bool_decide (path = "") || ends_with_sep path then path +:+ b
  else path +:+ "/" +:+ b.

(** [os.path.join a p1 ... pn]. *)
Definition join (a : string) (p : list string) : string := foldl join2 a p.

(** A path is under a directory when it is the directory or lies below it. *)
Definition under (root path : string) : bool :=
  bool_decide (path = root) || String.prefix (root +:+ "/") path.

Definition print (text : string) : IO unit :=
  fun w => (Ok tt, emit (Print text) w).

(** [os.makedirs path exist_ok=True]. *)
Definition makedirs (path : string) : IO unit :=
  fun w => (Ok tt, emit (Makedirs path)
                     (World (Fs (files (disk w)) ({[path]} ∪ dirs (disk w))) (trace w))).

(** [img.save path 'PNG']. *)
Definition save (img : Image) (path : string) : IO unit :=
  fun w => (Ok tt, emit (Save path img) (World (write path (Png img) (disk w)) (trace w))).

(** [json.dump] into a file opened for writing. *)
Definition dump (c : contents) (path : string) : IO unit :=
  fun w => (Ok tt, emit (Dump path c) (World (write path (Json c) (disk w)) (trace w))).

(** [os.path.exists]. *)
Definition exists_ (path : string) : IO bool :=
  fun w => (Ok (bool_decide (is_Some (files (disk w) !! path))
                || bool_decide (path ∈ dirs (disk w))), w).

(** [shutil.copy src dst] of a regular file onto a file name. *)
Definition copy (src dst : string) : IO unit :=
  fun w => match files (disk w) !! src with
           | Some f => (Ok tt, emit (Copy src dst) (World (write dst f (disk w)) (trace w)))
           | None => (Raise FileNotFoundError, w)
           end.

(** [shutil.rmtree path ignore_errors=True]. *)
Definition rmtree (path : string) : IO unit :=
  fun w => (Ok tt, emit (Rmtree path)
              (World (Fs (filter (fun kv => negb (under path kv.1) = true) (files (disk w)))
                         (filter (fun p => negb (under path p) = true) (dirs (disk w))))
                     (trace w))).

(** A [for] loop whose body raises or goes on. *)
Fixpoint for_ {A} (l : list A) (body : A -> IO unit) : IO unit :=
  match l with
  | [] => ret tt
  | a :: rest => bind (body a) (fun _ => for_ rest body)
  end.

End OS.

Import OS.

#[global] Instance IO_ret : MRet IO := @OS.ret.
#[global] Instance IO_bind : MBind IO := fun A B k m => OS.bind m k.

(** ** The driver *)

Definition create_icon (size : Z) (output_path : string) : IO unit :=
  img ← lift (create_icon_canvas size);
  _ ← save img output_path;
  print ("Created " +:+ str size +:+ "x" +:+ str size +:+ " icon: " +:+ output_path).

Definition icon_name (size : Z) : string :=
  "icon_" +:+ str size +:+ "x" +:+ str size +:+ ".png".

Definition icon_name_2x (size : Z) : string :=
  "icon_" +:+ str size +:+ "x" +:+ str size +:+ "@2x.png".

Definition iconset_dir (script_dir : string) : string :=
  join script_dir ["ClaudeMenuBar"; "ClaudeMenuBar"; "Assets.xcassets"; "AppIcon.appiconset"].

(** Lines 105-113: the icons at all required sizes. *)
Definition generate_icons (iconset_dir : string) : IO unit :=
  for_ SIZES (fun size =>
    let output_path := join iconset_dir [icon_name size] in
    _ ← create_icon size output_path;
    if size <=? 512 then
      let output_path_2x := join iconset_dir [icon_name_2x size] in
      create_icon (size * 2) output_path_2x
    else mret tt).

Definition manifest : contents :=
  Contents
    [ Entry "icon_16x16.png" "mac" "1x" "16x16";
      Entry "icon_16x16@2x.png" "mac" "2x" "16x16";
      Entry "icon_32x32.png" "mac" "1x" "32x32";
      Entry "icon_32x32@2x.png" "mac" "2x" "32x32";
      Entry "icon_128x128.png" "mac" "1x" "128x128";
      Entry "icon_128x128@2x.png" "mac" "2x" "128x128";
      Entry "icon_256x256.png" "mac" "1x" "256x256";
      Entry "icon_256x256@2x.png" "mac" "2x" "256x256";
      Entry "icon_512x512.png" "mac" "1x" "512x512";
      Entry "icon_512x512@2x.png" "mac" "2x" "512x512" ]
    "xcode" 1.

(** Lines 116-136: [Contents.json]. *)
Definition update_contents (iconset_dir : string) : IO unit :=
  let contents_path := join iconset_dir ["Contents.json"] in
  _ ← dump manifest contents_path;
  print ("Updated " +:+ contents_path).

Definition iconset_tmp : string := "/tmp/ClaudeMenuBar.iconset".

Definition icon_mappings : list (Z * string) :=
  [ (16, "icon_16x16.png");
    (32, "icon_16x16@2x.png");
    (32, "icon_32x32.png");
    (64, "icon_32x32@2x.png");
    (128, "icon_128x128.png");
    (256, "icon_128x128@2x.png");
    (256, "icon_256x256.png");
    (512, "icon_256x256@2x.png");
    (512, "icon_512x512.png");
    (1024, "icon_512x512@2x.png") ].

(** The file the packaging loop reads for one entry of [icon_mappings]. *)
Definition mapping_src (iconset_dir : string) (size : Z) : string :=
  let src := join iconset_dir [icon_name size] in
  if 512 <? size then join iconset_dir ["icon_512x512@2x.png"] else src.

(** Lines 157-164: the copies into the temporary icon set. *)
Definition copy_icons (iconset_dir : string) : IO unit :=
  for_ icon_mappings (fun '(size, name) =>
    let src := mapping_src iconset_dir size in
    let dst := join iconset_tmp [name] in
    e ← exists_ src;
    if e : bool then copy src dst else mret tt).

Definition newline : string := String (Ascii.ascii_of_nat 10) EmptyString.

Section Driver.

(** The operating system's answer to [subprocess.run argv capture_output=True
    text=True]: the command cannot be started and the call raises, or it
    runs, may change the disk, and completes with an exit status. *)
Variable subprocess_run : list string -> fs -> result CompletedProcess * fs.

Definition run (argv : list string) : IO CompletedProcess :=
  fun w => let '(r, d) := subprocess_run argv (disk w) in
           (r, emit (Run argv) (World d (trace w))).

(** Lines 138-177: the [.icns] file and the cleanup. *)
Definition create_icns (script_dir iconset_dir : string) : IO unit :=
  _ ← print (newline +:+ "Creating .icns file...");
  _ ← makedirs iconset_tmp;
  _ ← copy_icons iconset_dir;
  let icns_path := join script_dir ["ClaudeMenuBar.icns"] in
  result ← run ["iconutil"; "-c"; "icns"; iconset_tmp; "-o"; icns_path];
  _ ← (if returncode result =? 0
       then print ("Created " +:+ icns_path)
       else print ("iconutil error: " +:+ stderr result));
  rmtree iconset_tmp.

Definition main (script_dir : string) : IO unit :=
  let iconset_dir := iconset_dir script_dir in
  _ ← makedirs iconset_dir;
  _ ← generate_icons iconset_dir;
  _ ← update_contents iconset_dir;
  create_icns script_dir iconset_dir.

End Driver.


(** ** What the claims observe *)

(** The edges [main] asks [create_icon] for: each size, and its double when
    the size is at most 512. *)
Definition requested_edges : list Z :=
  flat_map (fun size => size :: (if size <=? 512 then [size * 2] else [])) SIZES.

(** The fill of the rounded rectangle drawn first, the background. *)
Definition background_fill (img : Image) : option color :=
  match im_calls img with
  | DrawCall (RoundedRectangle _ _) fill :: _ => Some fill
  | _ => None
  end.

(** The bounding boxes of the filled ellipses, in drawing order. *)
Fixpoint ellipse_boxes (calls : list draw_call) : list box :=
  match calls with
  | [] => []
  | c :: rest =>
      match dc_shape c with
      | Ellipse b => b :: ellipse_boxes rest
      | _ => ellipse_boxes rest
      end
  end.

(** The top edge of the glyph's bounding region: [top_y] as the left
    hemisphere receives it. *)
Definition hemisphere_top (img : Image) : option num :=
  match ellipse_boxes (im_calls img) with
  | (_, y0, _, _) :: _ => Some y0
  | [] => None
  end.

(** [brain_height] in exact integer arithmetic. *)
Definition brain_height_exact (size : Z) : Z :=
  17 * (size - 2 * (size / 5)) / 20.

(** Following the specification's words: the top edge raised by [5 * s] above
    the vertically centred position, [center_y - glyphHeight / 2 - 5 * s]. *)
Definition spec_top_y (size : Z) : result float :=
  s ← int_truediv_float size 100.0;
  cy ← int_truediv_int size 2;
  h ← int_truediv_int (brain_height_exact size) 2;
  Ok (cy - h - 5 * s)%float.

(** ** Pixels *)

Section Raster.

(** Which pixels a drawing call paints is Pillow's business. *)
Variable covers : shape -> Z -> Z -> bool.

(** An RGB fill on an RGBA image is opaque ink. *)
Definition ink (c : color) : rgba :=
  let '(r, g, b) := c in (r, g, b, 255).

Definition alpha (p : rgba) : Z := snd p.

(** Drawing replaces the pixels a call covers; nothing is blended. *)
Definition paint (x y : Z) (px : rgba) (c : draw_call) : rgba :=
  if covers (dc_shape c) x y then ink (dc_fill c) else px.

Definition getpixel (img : Image) (x y : Z) : rgba :=
  foldl (paint x y) (im_background img) (im_calls img).

(** The pixel buffer, row by row, four bytes a pixel. *)
Definition tobytes (img : Image) : list Z :=
  flat_map (fun y =>
    flat_map (fun x => let '(r, g, b, a) := getpixel img x y in [r; g; b; a])
             (seqZ 0 (im_width img)))
    (seqZ 0 (im_height img)).

End Raster.

(** The largest integer below and the least integer above a coordinate. *)
Definition float_floor (f : float) : Z :=
  match Prim2SF f with
  | S754_finite sgn m e =>
      let v := if 0 <=? e then Z.pos m * 2 ^ e else Z.pos m / 2 ^ (- e) in
      let exact := (0 <=? e) || (Z.pos m mod 2 ^ (- e) =? 0) in
      if sgn then (if exact then - v else - v - 1) else v
  | _ => 0
  end.

Definition float_ceil (f : float) : Z :=
  match Prim2SF f with
  | S754_finite sgn m e =>
      let v := if 0 <=? e then Z.pos m * 2 ^ e else Z.pos m / 2 ^ (- e) in
      let exact := (0 <=? e) || (Z.pos m mod 2 ^ (- e) =? 0) in
      if sgn then - v else (if exact then v else v + 1)
  | _ => 0
  end.

Definition num_floor (n : num) : Z :=
  match n with Int z => z | Float f => float_floor f end.

Definition num_ceil (n : num) : Z :=
  match n with Int z => z | Float f => float_ceil f end.

(** Pixel [(x, y)] lies in the box grown by [m] pixels on every side. *)
Definition in_box (m : Z) (xy : box) (x y : Z) : bool :=
  let '(a, b, c, d) := xy in
  (Z.min (num_floor a) (num_floor c) - m <=? x) &&
  (x <=? Z.max (num_ceil a) (num_ceil c) + m) &&
  (Z.min (num_floor b) (num_floor d) - m <=? y) &&
  (y <=? Z.max (num_ceil b) (num_ceil d) + m).

(** Pixel [(x, y)] lies in the square of side [r] at a corner whose circle
    has centre [(cx, cy)], and further than [r + 1] from that centre. *)
Definition cut_off (r cx cy x y : Z) : bool :=
  (Z.abs (x - cx) <=? r) && (Z.abs (y - cy) <=? r) &&
  ((r + 1) * (r + 1) <? (x - cx) * (x - cx) + (y - cy) * (y - cy)).

Definition in_corner (r : Z) (xy : box) (x y : Z) : bool :=
  let '(a, b, c, d) := xy in
  let x0 := num_floor a in let y0 := num_floor b in
  let x1 := num_ceil c in let y1 := num_ceil d in
  ((x <? x0 + r) && (y <? y0 + r) && cut_off r (x0 + r) (y0 + r) x y) ||
  ((x1 - r <? x) && (y <? y0 + r) && cut_off r (x1 - r) (y0 + r) x y) ||
  ((x <? x0 + r) && (y1 - r <? y) && cut_off r (x0 + r) (y1 - r) x y) ||
  ((x1 - r <? x) && (y1 - r <? y) && cut_off r (x1 - r) (y1 - r) x y).

(** An outer bound on what a call paints: its bounding box, grown by a
    pixel and by the stroke width, less the cut corners of a rounded
    rectangle. *)
Definition may_cover (sh : shape) (x y : Z) : bool :=
  match sh with
  | RoundedRectangle xy r => in_box 0 xy x y && negb (in_corner r xy x y)
  | Ellipse xy => in_box 1 xy x y
  | Line xy w => in_box (w + 1) xy x y
  | Arc xy _ _ w => in_box (w + 1) xy x y
  end.

(** An inner bound: the two bands of a rounded rectangle that lie between
    its corners. *)
Definition must_cover (sh : shape) (x y : Z) : bool :=
  match sh with
  | RoundedRectangle (a, b, c, d) r =>
      let x0 := num_ceil a in let y0 := num_ceil b in
      let x1 := num_floor c in let y1 := num_floor d in
      (0 <=? r) && (x0 <=? x) && (x <=? x1) && (y0 <=? y) && (y <=? y1) &&
      (((x0 + r <=? x) && (x <=? x1 - r)) || ((y0 + r <=? y) && (y <=? y1 - r)))
  | _ => false
  end.

(** What is taken for granted of Pillow's rasteriser: every call paints at
    most its outer bound and at least its inner bound. *)
Record pillow_contract (covers : shape -> Z -> Z -> bool) : Prop := {
  covers_within : forall sh x y, covers sh x y = true -> may_cover sh x y = true;
  covers_bands : forall sh x y, must_cover sh x y = true -> covers sh x y = true
}.

(** The canvas of an edge the driver requests; the blank canvas stands in
    where the renderer raises. *)
Definition canvas (edge : Z) : Image :=
  match create_icon_canvas edge with
  | Ok img => img
  | Raise _ => new "RGBA" (edge, edge) (0, 0, 0, 0)
  end.

Definition renders (edge : Z) : bool :=
  match create_icon_canvas edge with
  | Ok _ => true
  | Raise _ => false
  end.

(** The message [create_icon] prints. *)
Definition created (size : Z) (output_path : string) : string :=
  "Created " +:+ str size +:+ "x" +:+ str size +:+ " icon: " +:+ output_path.

(** The world after a [create_icon] that rendered [img]. *)
Definition saved (size : Z) (img : Image) (output_path : string) (w : world) : world :=
  World (write output_path (Png img) (disk w))
        (trace w ++ [Save output_path img; Print (created size output_path)]).

(** Twice [top_y] in exact integer arithmetic: the edge, less twice the
    floored half height, plus twice the floored [5 * s]. *)
Definition twice_top_y_exact (size : Z) : Z :=
  size - 2 * (brain_height_exact size / 2) + 2 * (size / 20).

Definition top_y_checks (size : Z) : bool :=
  match create_icon_canvas size with
  | Ok img =>
      match hemisphere_top img, float_of_int (twice_top_y_exact size) with
      | Some (Float top), Ok e => Leibniz.eqb (top * 2)%float e
      | _, _ => false
      end
  | Raise _ => false
  end.

(** ** The driver, phase by phase *)

(** The file name and the edge of each [create_icon] call of the loop. *)
Definition icon_jobs : list (string * Z) :=
  flat_map (fun size =>
    (icon_name size, size) ::
    (if size <=? 512 then [(icon_name_2x size, size * 2)] else [])) SIZES.

Definition job_step (dir : string) (w : world) (job : string * Z) : world :=
  saved job.2 (canvas job.2) (join dir [job.1]) w.

(** The world after the loop over [SIZES]. *)
Definition generated (dir : string) (w : world) : world :=
  foldl (job_step dir) w icon_jobs.

(** One turn of the loop over [SIZES]. *)
Definition size_step (dir : string) (w : world) (size : Z) : world :=
  let w1 := saved size (canvas size) (join dir [icon_name size]) w in
  if size <=? 512
  then saved (size * 2) (canvas (size * 2)) (join dir [icon_name_2x size]) w1
  else w1.

(** The world after [Contents.json] is written. *)
Definition updated (dir : string) (w : world) : world :=
  let contents_path := join dir ["Contents.json"] in
  World (write contents_path (Json manifest) (disk w))
        (trace w ++ [Dump contents_path manifest; Print ("Updated " +:+ contents_path)]).

(** The source file name of a packaging copy. *)
Definition mapping_src_name (size : Z) : string :=
  if 512 <? size then "icon_512x512@2x.png" else icon_name size.

Definition copy_step (dir : string) (w : world) (m : Z * string) : world :=
  let src := mapping_src dir m.1 in
  let dst := join iconset_tmp [m.2] in
  match files (disk w) !! src with
  | Some f => World (write dst f (disk w)) (trace w ++ [Copy src dst])
  | None => w
  end.

Definition made (path : string) (w : world) : world :=
  World (Fs (files (disk w)) ({[path]} ∪ dirs (disk w))) (trace w ++ [Makedirs path]).

Definition printed (text : string) (w : world) : world :=
  World (disk w) (trace w ++ [Print text]).

(** The world in which [main] calls [iconutil]. *)
Definition before_iconutil (script_dir : string) (w : world) : world :=
  let dir := iconset_dir script_dir in
  foldl (copy_step dir)
    (made iconset_tmp
       (printed (newline +:+ "Creating .icns file...")
          (updated dir (generated dir (made dir w)))))
    icon_mappings.

Definition icns_path (script_dir : string) : string :=
  join script_dir ["ClaudeMenuBar.icns"].

Definition iconutil_argv (script_dir : string) : list string :=
  ["iconutil"; "-c"; "icns"; iconset_tmp; "-o"; icns_path script_dir].

(** What [main] prints once [iconutil] has completed. *)
Definition report (script_dir : string) (result : CompletedProcess) : string :=
  if returncode result =? 0
  then "Created " +:+ icns_path script_dir
  else "iconutil error: " +:+ stderr result.

(** The disk after [shutil.rmtree path]. *)
Definition removed (path : string) (d : fs) : fs :=
  Fs (filter (fun kv => negb (under path kv.1) = true) (files d))
     (filter (fun p => negb (under path p) = true) (dirs d)).

(** The paths [img.save] was called with, and the copies made, in order. *)
Definition saved_paths (t : list event) : list string :=
  omap (fun e => match e with Save path _ => Some path | _ => None end) t.

Definition copies (t : list event) : list (string * string) :=
  omap (fun e => match e with Copy src dst => Some (src, dst) | _ => None end) t.

(** The directory part [os.path.join] puts before a relative name. *)
Definition dir_prefix (dir : string) : string :=
  if bool_decide (dir = "") || ends_with_sep dir then dir else dir +:+ "/".

(** [main] up to and including [Contents.json], lines 98-136. *)
Definition write_icon_set (script_dir : string) : IO unit :=
  let iconset_dir := iconset_dir script_dir in
  _ ← makedirs iconset_dir;
  _ ← generate_icons iconset_dir;
  update_contents iconset_dir.

(** The names under which the loop saves its thirteen renders. *)
Definition png_names : list string :=
  ["icon_16x16.png"; "icon_16x16@2x.png"; "icon_32x32.png"; "icon_32x32@2x.png";
   "icon_64x64.png"; "icon_64x64@2x.png"; "icon_128x128.png"; "icon_128x128@2x.png";
   "icon_256x256.png"; "icon_256x256@2x.png"; "icon_512x512.png";
   "icon_512x512@2x.png"; "icon_1024x1024.png"].

(** An [iconutil] that always completes with the given result and leaves
    the disk alone; used to run the driver on examples. *)
Definition iconutil_completes (result : CompletedProcess)
    (argv : list string) (d : fs) : Py.result CompletedProcess * fs :=
  (Ok result, d).

Definition empty_world : world := World (Fs ∅ ∅) [].

(** Strokes are the calls that draw an outline: [line] and [arc]. *)
Definition is_stroke (sh : shape) : bool :=
  match sh with
  | Line _ _ | Arc _ _ _ _ => true
  | RoundedRectangle _ _ | Ellipse _ => false
  end.

Definition is_arc (sh : shape) : bool :=
  match sh with
  | Arc _ _ _ _ => true
  | _ => false
  end.

(** Two images with the same header. *)
Definition same_header (a b : Image) : Prop :=
  im_mode a = im_mode b /\ im_width a = im_width b /\
  im_height a = im_height b /\ im_background a = im_background b.

Definition generated_events (dir : string) : list event :=
  flat_map (fun job : string * Z =>
    [Save (join dir [job.1]) (canvas job.2);
     Print (created job.2 (join dir [job.1]))]) icon_jobs.

Definition copy_events (dir : string) : list event :=
  map (fun m : Z * string => Copy (mapping_src dir m.1) (join iconset_tmp [m.2]))
      icon_mappings.

Definition corners_outside (N : Z) (img : Image) : bool :=
  forallb (fun c =>
    negb (may_cover (dc_shape c) 0 0) && negb (may_cover (dc_shape c) 0 (N - 1)) &&
    negb (may_cover (dc_shape c) (N - 1) 0) &&
    negb (may_cover (dc_shape c) (N - 1) (N - 1))) (im_calls img).

Definition centre_inside (N : Z) (img : Image) : bool :=
  existsb (fun c => must_cover (dc_shape c) (N / 2) (N / 2)) (im_calls img).

Definition icon_checks (N : Z) : bool :=
  match create_icon_canvas N with
  | Ok img => corners_outside N img && centre_inside N img
  | Raise _ => false
  end.

(** ** More of the canvas *)

(** The bounding box, or the end points, a drawing call was given. *)
Definition shape_box (sh : shape) : box :=
  match sh with
  | RoundedRectangle xy _ | Ellipse xy | Line xy _ | Arc xy _ _ _ => xy
  end.

(** The rows of the arcs of one hemisphere: the arithmetic of the body of
    the loop over the offsets. *)
Fixpoint arc_rows (offsets : list float) (top_y : float) (brain_height i10 : Z)
    : result (list (float * float)) :=
  match offsets with
  | [] => Ok []
  | offset :: rest =>
      yo ← (h ← int_mul_float brain_height offset; int_of_float h);
      y_pos ← float_add_int top_y yo;
      ya ← float_sub_int y_pos i10;
      yb ← float_add_int y_pos i10;
      rows ← arc_rows rest top_y brain_height i10;
      Ok ((ya, yb) :: rows)
  end.

(** The arcs drawn between [x0] and [x1] on the given rows. *)
Definition arcs_on (x0 x1 : num) (lw : Z) (lc : color) (rows : list (float * float))
    : list draw_call :=
  map (fun r : float * float =>
         DrawCall (Arc (x0, Float r.1, x1, Float r.2) 0 180 lw) lc) rows.

(** The integer arguments of the drawing calls, in order: the coordinates
    given as [int], the corner radius, the stroke widths and the angles. *)
Definition ints (xy : box) : list Z :=
  let '(a, b, c, d) := xy in
  omap (fun n => match n with Int z => Some z | Float _ => None end) [a; b; c; d].

Definition int_arguments (img : Image) : list Z :=
  flat_map (fun c =>
    match dc_shape c with
    | RoundedRectangle xy r => ints xy ++ [r]
    | Ellipse xy => ints xy
    | Line xy w => ints xy ++ [w]
    | Arc xy start stop w => ints xy ++ [start; stop; w]
    end) (im_calls img).

(** The same arguments in integer arithmetic. *)
Definition int_arguments_exact (N : Z) : list Z :=
  let w := Z.max 1 (N / 50) in
  let l := N / 5 + N / 20 in
  let r := N - N / 5 - N / 20 in
  [0; 0; N - 1; N - 1; 11 * N / 50; N / 5; N - N / 5; w;
   l; 0; 180; w; l; 0; 180; w; l; 0; 180; w;
   r; 0; 180; w; r; 0; 180; w; r; 0; 180; w].

Definition int_arguments_check (N : Z) : bool :=
  match create_icon_canvas N with
  | Ok img => bool_decide (int_arguments img = int_arguments_exact N)
  | Raise _ => false
  end.

(** Comparison of two coordinates as Pillow makes it, in binary64. *)
Definition num_leb (a b : num) : bool :=
  match (match a with Int z => float_of_int z | Float f => Ok f end),
        (match b with Int z => float_of_int z | Float f => Ok f end) with
  | Ok x, Ok y => PrimFloat.leb x y
  | _, _ => false
  end.

(** A box whose second corner is not before its first. *)
Definition ordered (xy : box) : bool :=
  let '(x0, y0, x1, y1) := xy in num_leb x0 x1 && num_leb y0 y1.

(** A box whose corners lie between 0 and [N]. *)
Definition within (N : Z) (xy : box) : bool :=
  let '(x0, y0, x1, y1) := xy in
  forallb (fun n => num_leb (Int 0) n && num_leb n (Int N)) [x0; y0; x1; y1].

Definition boxes_check (N : Z) : bool :=
  match create_icon_canvas N with
  | Ok img =>
      forallb (fun c => ordered (shape_box (dc_shape c)) &&
                        within N (shape_box (dc_shape c))) (im_calls img)
  | Raise _ => false
  end.

(** The coordinate [n] is exactly [z / 2]. *)
Definition is_half_of (z : Z) (n : num) : bool :=
  match n with
  | Int i => z =? 2 * i
  | Float f =>
      match float_of_int z with
      | Ok e => Leibniz.eqb (f * 2)%float e
      | Raise _ => false
      end
  end.

Definition box_is (zs : Z * Z * Z * Z) (xy : box) : bool :=
  let '(a, b, c, d) := zs in
  let '(na, nb, nc, nd) := xy in
  is_half_of a na && is_half_of b nb && is_half_of c nc && is_half_of d nd.

(** The boxes of the eleven calls in integer arithmetic, every coordinate
    doubled so that the half pixels of odd edges are integers. *)
Definition boxes_exact (N : Z) : list (Z * Z * Z * Z) :=
  let p := N / 5 in
  let bh := brain_height_exact N in
  let top := twice_top_y_exact N in
  let bottom := top + 2 * bh in
  let i5 := N / 20 in
  let i10 := N / 10 in
  let i15 := 3 * N / 20 in
  let sw := 3 * N / 25 in
  let arcs (x0 x1 : Z) :=
    map (fun yo => (x0, top + 2 * yo - 2 * i10, x1, top + 2 * yo + 2 * i10))
        [bh / 4; bh / 2; 7 * bh / 10] in
  [ (0, 0, 2 * (N - 1), 2 * (N - 1));
    (2 * p, top, N + 2 * i5, bottom);
    (N - 2 * i5, top, 2 * (N - p), bottom);
    (N - 2 * (sw / 2), bottom - 2 * i10, N + 2 * (sw / 2), bottom + 2 * i15);
    (N, top + 2 * i10, N, bottom - 2 * i15) ] ++
  arcs (2 * (p + i5)) (N - 2 * i5) ++ arcs (N + 2 * i5) (2 * (N - p - i5)).

Fixpoint boxes_are (calls : list draw_call) (zs : list (Z * Z * Z * Z)) : bool :=
  match calls, zs with
  | [], [] => true
  | c :: calls, z :: zs => box_is z (shape_box (dc_shape c)) && boxes_are calls zs
  | _, _ => false
  end.

Definition geometry_check (N : Z) : bool :=
  match create_icon_canvas N with
  | Ok img => boxes_are (im_calls img) (boxes_exact N)
  | Raise _ => false
  end.

(** ** More of the driver *)

(** The lines written to standard output, and the directories
    [shutil.rmtree] was called on, in order. *)
Definition printed_lines (t : list event) : list string :=
  omap (fun e => match e with Print text => Some text | _ => None end) t.

Definition rmtrees (t : list event) : list string :=
  omap (fun e => match e with Rmtree path => Some path | _ => None end) t.

(** The names of the fourteen files of the icon set: the thirteen renders
    and the manifest. *)
Definition icon_set_names : list string := png_names ++ ["Contents.json"].

(** [s] ends with [suffix]. *)
Fixpoint suffixb (suffix s : string) : bool :=
  bool_decide (suffix = s) ||
  match s with
  | String _ rest => suffixb suffix rest
  | EmptyString => false
  end.

(** No file of the temporary icon set can be a file of the icon set: its
    path does not end the way theirs do. *)
Definition clash_free : bool :=
  forallb (fun name =>
    forallb (fun n =>
      negb (suffixb ("Assets.xcassets/AppIcon.appiconset" +:+ "/" +:+ n)
                    (join iconset_tmp [name])))
      icon_set_names) icon_mappings.*2.

(** * Facts about the renderer *)

Lemma same_header_refl a : same_header a a.
Proof. repeat split. Qed.

Lemma same_header_trans a b c : same_header a b -> same_header b c -> same_header a c.
Proof. unfold same_header. intuition congruence. Qed.

Lemma same_header_draw img sh fill : same_header img (draw img sh fill).
Proof. repeat split. Qed.

(** Peel one [bind] off a computation known to return. *)
Ltac bind_inv H :=
  unfold mbind, result_bind, Py.bind in H;
  repeat
    (cbv beta zeta in H;
     match type of H with
     | match ?x with Ok _ => _ | Raise _ => _ end = Ok _ =>
         let E := fresh "E" in
         destruct x eqn:E; [ | discriminate H ]
     end).

Lemma draw_arcs_calls offsets : forall img x0 x1 top_y bh i10 lc lw img',
  draw_arcs img offsets x0 x1 top_y bh i10 lc lw = Ok img' ->
  exists arcs,
    im_calls img' = im_calls img ++ arcs /\
    length arcs = length offsets /\
    Forall (fun c => is_arc (dc_shape c) = true /\ dc_fill c = lc) arcs /\
    same_header img img'.
Proof.
  induction offsets as [|o rest IH]; intros img x0 x1 top_y bh i10 lc lw img' H.
  - injection H as <-. exists []. rewrite app_nil_r. repeat split. constructor.
  - cbn [draw_arcs] in H. bind_inv H.
    apply IH in H as (arcs & Hc & Hl & Hf & Hh).
    eexists (_ :: arcs). split; [|split; [|split]].
    + rewrite Hc. unfold arc, draw. cbn [im_calls]. rewrite <- app_assoc. reflexivity.
    + cbn. now rewrite Hl.
    + constructor; [now split | exact Hf].
    + eapply same_header_trans; [apply same_header_draw | exact Hh].
Qed.

(** What one call of [draw_brain_icon] appends, whatever the size. *)
Lemma draw_brain_icon_calls img size color img' :
  draw_brain_icon img size color = Ok img' ->
  exists b1 b2 b3 l w arcs,
    im_calls img' =
      im_calls img ++
      [DrawCall (Ellipse b1) color; DrawCall (Ellipse b2) color;
       DrawCall (Ellipse b3) color; DrawCall (Line l w) CLAUDE_ORANGE] ++ arcs /\
    length arcs = 6%nat /\
    Forall (fun c => is_arc (dc_shape c) = true /\ dc_fill c = CLAUDE_ORANGE) arcs /\
    same_header img img'.
Proof.
  intros H. unfold draw_brain_icon in H. bind_inv H.
  apply draw_arcs_calls in H as (arcs2 & Hc2 & Hl2 & Hf2 & Hh2).
  match goal with E : draw_arcs _ _ _ _ _ _ _ _ _ = Ok _ |- _ =>
    apply draw_arcs_calls in E as (arcs1 & Hc1 & Hl1 & Hf1 & Hh1) end.
  do 5 eexists. exists (arcs1 ++ arcs2). split; [|split; [|split]].
  - rewrite Hc2, Hc1. unfold line, ellipse, draw. cbn [im_calls].
    rewrite <- !app_assoc. reflexivity.
  - rewrite length_app, Hl1, Hl2. reflexivity.
  - apply Forall_app. split; assumption.
  - eapply same_header_trans; [|exact Hh2].
    eapply same_header_trans; [|exact Hh1].
    repeat split.
Qed.

Lemma create_icon_canvas_calls size img :
  create_icon_canvas size = Ok img ->
  exists r b1 b2 b3 l w arcs,
    im_calls img =
      [DrawCall (RoundedRectangle (Int 0, Int 0, Int (size - 1), Int (size - 1)) r)
         CLAUDE_ORANGE;
       DrawCall (Ellipse b1) WHITE; DrawCall (Ellipse b2) WHITE;
       DrawCall (Ellipse b3) WHITE; DrawCall (Line l w) CLAUDE_ORANGE] ++ arcs /\
    corner_radius size = Ok r /\
    length arcs = 6%nat /\
    Forall (fun c => is_arc (dc_shape c) = true /\ dc_fill c = CLAUDE_ORANGE) arcs /\
    im_mode img = "RGBA" /\ im_width img = size /\ im_height img = size /\
    im_background img = (0, 0, 0, 0).
Proof.
  intros H. unfold create_icon_canvas in H. bind_inv H.
  apply draw_brain_icon_calls in H as (b1 & b2 & b3 & l & w & arcs & Hc & Hl & Hf & Hh).
  exists a, b1, b2, b3, l, w, arcs.
  destruct Hh as (Hm & Hw & Hht & Hb).
  repeat split; try assumption; try (symmetry; assumption).
Qed.

Lemma requested_edges_render : forallb renders requested_edges = true.
Proof. vm_compute. reflexivity. Qed.

Lemma canvas_ok edge : edge ∈ requested_edges -> create_icon_canvas edge = Ok (canvas edge).
Proof.
  intros Hin. apply list_elem_of_In in Hin.
  pose proof (proj1 (forallb_forall renders requested_edges) requested_edges_render _ Hin) as H.
  unfold renders in H. unfold canvas.
  destruct (create_icon_canvas edge); [reflexivity | discriminate H].
Qed.

Lemma sizes_requested size : size ∈ SIZES -> size ∈ requested_edges.
Proof.
  intros H. unfold requested_edges. apply list_elem_of_In, in_flat_map.
  exists size. split; [now apply list_elem_of_In | now left].
Qed.

Lemma doubles_requested size :
  size ∈ SIZES -> size <= 512 -> size * 2 ∈ requested_edges.
Proof.
  intros H Hle. unfold requested_edges. apply list_elem_of_In, in_flat_map.
  exists size. split; [now apply list_elem_of_In |].
  right. destruct (Z.leb_spec size 512); [now left | lia].
Qed.

Lemma create_icon_run size output_path img w :
  create_icon_canvas size = Ok img ->
  create_icon size output_path w = (Ok tt, saved size img output_path w).
Proof.
  intros H. unfold create_icon, mbind, IO_bind, OS.bind, lift, save, print, emit, saved, created.
  rewrite H. cbn [disk trace]. rewrite <- app_assoc. reflexivity.
Qed.

Lemma create_icon_raises size output_path e w :
  create_icon_canvas size = Raise e ->
  create_icon size output_path w = (Raise e, w).
Proof.
  intros H. unfold create_icon, mbind, IO_bind, OS.bind, lift. rewrite H. reflexivity.
Qed.

(** * The renderer's claims *)

(** C9. For every edge the driver requests, [create_icon] renders, and the
    canvas it allocates and saves is exactly N by N pixels: its width and its
    height both equal the edge. *)
Theorem create_icon_canvas_square (N : Z) (output_path : string) (w : world) :
  N ∈ requested_edges ->
  exists img,
    create_icon_canvas N = Ok img /\
    im_width img = N /\ im_height img = N /\
    (create_icon N output_path w).1 = Ok tt /\
    files (disk (create_icon N output_path w).2) !! output_path = Some (Png img).
Proof.
  intros Hin. pose proof (canvas_ok N Hin) as Hc.
  exists (canvas N).
  destruct (create_icon_canvas_calls _ _ Hc) as (r & b1 & b2 & b3 & l & lw & arcs & H).
  destruct H as (_ & _ & _ & _ & _ & Hw & Hh & _).
  rewrite (create_icon_run _ _ _ _ Hc).
  repeat split; try assumption.
  unfold saved, write. cbn. apply lookup_insert_eq.
Qed.

Lemma create_icon_canvas_square_witness :
  exists img,
    create_icon_canvas 32 = Ok img /\
    im_width img = 32 /\ im_height img = 32 /\
    (create_icon 32 "icon_16x16@2x.png" (World (Fs ∅ ∅) [])).1 = Ok tt /\
    files (disk (create_icon 32 "icon_16x16@2x.png" (World (Fs ∅ ∅) [])).2)
      !! "icon_16x16@2x.png" = Some (Png img).
Proof.
  apply (create_icon_canvas_square 32 "icon_16x16@2x.png" (World (Fs ∅ ∅) [])).
  vm_compute. do 2 constructor.
Defined.

Lemma filter_all {A} (P : A -> Prop) `{forall x, Decision (P x)} (l : list A) :
  Forall P l -> filter P l = l.
Proof.
  induction 1 as [|x l Hx _ IH]; [reflexivity|].
  rewrite filter_cons_True by exact Hx. now rewrite IH.
Qed.

Lemma arcs_are_strokes (lc : color) (arcs : list draw_call) :
  Forall (fun c => is_arc (dc_shape c) = true /\ dc_fill c = lc) arcs ->
  Forall (fun c => is_stroke (dc_shape c) = true /\ dc_fill c = lc) arcs.
Proof.
  intros H. eapply Forall_impl; [exact H|].
  intros [sh fill] [Ha Hf]. split; [|exact Hf].
  destruct sh; cbn in *; congruence.
Qed.

(** C5, as the code has it.  The strokes [draw_brain_icon] adds, one line and
    six arcs, are filled with the constant [CLAUDE_ORANGE] for every
    foreground colour and whatever the canvas holds already, and the three
    ellipses with the foreground colour; on the canvas of [create_icon], whose
    background is that same constant, the stroke colour equals the
    background's. *)
Theorem strokes_are_claude_orange :
  (forall img size color img',
     draw_brain_icon img size color = Ok img' ->
     exists added,
       im_calls img' = im_calls img ++ added /\
       length (filter (fun c => is_stroke (dc_shape c) = true) added) = 7%nat /\
       forall c, c ∈ added ->
         dc_fill c = if is_stroke (dc_shape c) then CLAUDE_ORANGE else color) /\
  (forall size img,
     create_icon_canvas size = Ok img ->
     background_fill img = Some CLAUDE_ORANGE /\
     forall c, c ∈ im_calls img -> is_stroke (dc_shape c) = true ->
       Some (dc_fill c) = background_fill img).
Proof.
  split.
  - intros img size color img' H.
    apply draw_brain_icon_calls in H as (b1 & b2 & b3 & l & w & arcs & Hc & Hl & Hf & _).
    apply arcs_are_strokes in Hf.
    eexists. split; [exact Hc|]. split.
    + cbn [app].
      rewrite !filter_cons_False by (cbn; congruence).
      rewrite filter_cons_True by reflexivity.
      cbn [length]. rewrite <- Hl. do 2 f_equal. apply filter_all.
      eapply Forall_impl; [exact Hf|]. now intros c [Hs _].
    + intros c Hin. cbn [app] in Hin. rewrite !elem_of_cons in Hin.
      destruct Hin as [->|[->|[->|[->|Hin]]]]; try reflexivity.
      rewrite Forall_forall in Hf. destruct (Hf c Hin) as [-> ->]. reflexivity.
  - intros size img H.
    apply create_icon_canvas_calls in H
      as (r & b1 & b2 & b3 & l & w & arcs & Hc & _ & _ & Hf & _).
    apply arcs_are_strokes in Hf.
    unfold background_fill. rewrite Hc. split; [reflexivity|].
    intros c Hin Hs. cbn [app] in Hin. rewrite !elem_of_cons in Hin.
    destruct Hin as [->|[->|[->|[->|[->|Hin]]]]]; try discriminate Hs; try reflexivity.
    rewrite Forall_forall in Hf. destruct (Hf c Hin) as [_ ->]. reflexivity.
Qed.

Lemma strokes_are_claude_orange_witness :
  exists img',
    draw_brain_icon (new "RGBA" (16, 16) (0, 0, 0, 0)) 16 WHITE = Ok img' /\
    (exists added,
       im_calls img' = im_calls (new "RGBA" (16, 16) (0, 0, 0, 0)) ++ added /\
       length (filter (fun c => is_stroke (dc_shape c) = true) added) = 7%nat /\
       forall c, c ∈ added ->
         dc_fill c = if is_stroke (dc_shape c) then CLAUDE_ORANGE else WHITE) /\
    background_fill (canvas 16) = Some CLAUDE_ORANGE.
Proof.
  eexists. split; [vm_compute; reflexivity|]. split.
  - apply (proj1 strokes_are_claude_orange _ 16 WHITE). vm_compute. reflexivity.
  - apply (proj2 strokes_are_claude_orange 16 (canvas 16)). vm_compute. reflexivity.
Defined.

(** C5, as the claim states it, fails: on a canvas whose background was
    filled in white, the strokes are still drawn in [CLAUDE_ORANGE]. *)
Lemma stroke_colour_ignores_background :
  let bg := rounded_rectangle (new "RGBA" (16, 16) (0, 0, 0, 0))
              (Int 0, Int 0, Int 15, Int 15) 3 WHITE in
  exists img' c,
    draw_brain_icon bg 16 (0, 0, 0) = Ok img' /\
    background_fill img' = Some WHITE /\
    c ∈ im_calls img' /\
    is_stroke (dc_shape c) = true /\
    Some (dc_fill c) <> background_fill img'.
Proof.
  eexists.
  exists (DrawCall (Line (Float 8, Float 5, Float 8, Float 10) 1) CLAUDE_ORANGE).
  split; [vm_compute; reflexivity|].
  split; [reflexivity|]. split; [|split; [reflexivity | discriminate]].
  apply list_elem_of_In. cbn [im_calls]. do 4 right. left. reflexivity.
Qed.

Lemma top_y_checked : forallb top_y_checks (seqZ 1 2048) = true.
Proof. vm_compute. reflexivity. Qed.

(** C6, as the code has it.  For every edge from 1 to 2048 the top edge of
    the glyph's bounding region lies the floored [5 * s] below the vertically
    centred position, not above it:
    [top_y = edge / 2 - brain_height // 2 + int(5 * s)], stated doubled so that
    it reads in integers. *)
Theorem top_y_below_centre (N : Z) :
  1 <= N <= 2048 ->
  exists img top,
    create_icon_canvas N = Ok img /\
    hemisphere_top img = Some (Float top) /\
    float_of_int (twice_top_y_exact N) = Ok (top * 2)%float.
Proof.
  intros HN.
  assert (Hin : In N (seqZ 1 2048)) by (apply list_elem_of_In, elem_of_seqZ; lia).
  pose proof (proj1 (forallb_forall _ _) top_y_checked N Hin) as H.
  unfold top_y_checks in H.
  destruct (create_icon_canvas N) as [img|]; [|discriminate H].
  destruct (hemisphere_top img) as [[z|top]|] eqn:Ht; try discriminate H.
  destruct (float_of_int (twice_top_y_exact N)) as [e|]; [|discriminate H].
  apply FloatAxioms.Leibniz.eqb_spec in H. subst e.
  exists img, top. split; [reflexivity|]. split; [exact Ht | reflexivity].
Qed.

Lemma top_y_below_centre_witness :
  exists img top,
    create_icon_canvas 16 = Ok img /\
    hemisphere_top img = Some (Float top) /\
    float_of_int (twice_top_y_exact 16) = Ok (top * 2)%float.
Proof. apply (top_y_below_centre 16). lia. Defined.

(** C6, as the claim states it, fails: at edge 100 the code puts the top
    edge at row 30, where the claim's [center_y - glyphHeight / 2 - 5 * s]
    is 19.5. *)
Lemma top_y_is_not_raised :
  exists img top claimed,
    create_icon_canvas 100 = Ok img /\
    hemisphere_top img = Some (Float top) /\
    spec_top_y 100 = Ok claimed /\
    top = 30%float /\ claimed = 19.5%float /\ top <> claimed.
Proof.
  do 3 eexists.
  split; [vm_compute; reflexivity|].
  split; [vm_compute; reflexivity|].
  split; [vm_compute; reflexivity|].
  split; [reflexivity|]. split; [reflexivity|].
  intros H. apply FloatAxioms.Leibniz.eqb_spec in H. vm_compute in H. discriminate H.
Qed.

(** * Facts about the driver *)

Lemma string_app_assoc (a b c : string) : a +:+ b +:+ c = (a +:+ b) +:+ c.
Proof.
  induction a as [|x a IH]; [reflexivity|].
  change (String x (a +:+ b +:+ c) = String x ((a +:+ b) +:+ c)).
  now rewrite IH.
Qed.

Lemma join_relative dir name :
  starts_with_sep name = false -> join dir [name] = dir_prefix dir +:+ name.
Proof.
  intros H. unfold join, dir_prefix. cbn [foldl]. unfold join2. rewrite H.
  destruct (bool_decide (dir = "") || ends_with_sep dir); [reflexivity|].
  apply string_app_assoc.
Qed.

Lemma join_relative_inj dir a b :
  starts_with_sep a = false -> starts_with_sep b = false ->
  join dir [a] = join dir [b] -> a = b.
Proof.
  intros Ha Hb. rewrite !join_relative by assumption. apply String.app_inj.
Qed.

Lemma for_run {A} (body : A -> IO unit) (step : world -> A -> world) (l : list A) :
  forall w,
    (forall a w', a ∈ l -> body a w' = (Ok tt, step w' a)) ->
    for_ l body w = (Ok tt, foldl step w l).
Proof.
  induction l as [|a l IH]; intros w H; [reflexivity|].
  cbn [for_ foldl]. unfold OS.bind. rewrite H by constructor.
  apply IH. intros b w' Hb. apply H. now constructor.
Qed.

Lemma generate_icons_run dir w :
  generate_icons dir w = (Ok tt, generated dir w).
Proof.
  unfold generate_icons.
  rewrite (for_run _ (size_step dir)).
  - reflexivity.
  - intros size w' Hin. unfold mbind, IO_bind, OS.bind, size_step.
    rewrite (create_icon_run _ _ _ _ (canvas_ok _ (sizes_requested _ Hin))).
    destruct (Z.leb_spec size 512) as [Hle|Hgt]; [|reflexivity].
    apply create_icon_run, canvas_ok, doubles_requested; assumption.
Qed.

Lemma update_contents_run dir w :
  update_contents dir w = (Ok tt, updated dir w).
Proof.
  unfold update_contents, updated, mbind, IO_bind, OS.bind, dump, print, emit.
  cbn [disk trace]. rewrite <- app_assoc. reflexivity.
Qed.

(** ** The disk and the trace after the loop *)

Lemma generated_trace dir w :
  trace (generated dir w) =
    trace w ++ flat_map (fun job : string * Z =>
      [Save (join dir [job.1]) (canvas job.2);
       Print (created job.2 (join dir [job.1]))]) icon_jobs.
Proof.
  unfold generated. generalize icon_jobs as jobs. intros jobs. revert w.
  induction jobs as [|j jobs IH]; intros w; cbn [foldl flat_map].
  - now rewrite app_nil_r.
  - rewrite IH. unfold job_step, saved. cbn [trace].
    rewrite <- !app_assoc. reflexivity.
Qed.

Lemma generated_dirs dir w : dirs (disk (generated dir w)) = dirs (disk w).
Proof.
  unfold generated. generalize icon_jobs as jobs. intros jobs. revert w.
  induction jobs as [|j jobs IH]; intros w; cbn [foldl]; [reflexivity|].
  rewrite IH. reflexivity.
Qed.

Lemma jobs_lookup_other dir (jobs : list (string * Z)) : forall w path,
  (forall job, job ∈ jobs -> join dir [job.1] <> path) ->
  files (disk (foldl (job_step dir) w jobs)) !! path = files (disk w) !! path.
Proof.
  induction jobs as [|j jobs IH]; intros w path H; cbn [foldl]; [reflexivity|].
  rewrite IH by (intros job Hj; apply H; now constructor).
  unfold job_step, saved, write. cbn [disk files].
  apply lookup_insert_ne, H. constructor.
Qed.

Lemma jobs_lookup dir (jobs : list (string * Z)) : forall w name edge,
  Forall (fun job => starts_with_sep job.1 = false) jobs ->
  NoDup jobs.*1 ->
  (name, edge) ∈ jobs ->
  files (disk (foldl (job_step dir) w jobs)) !! join dir [name] = Some (Png (canvas edge)).
Proof.
  induction jobs as [|[n e] jobs IH]; intros w name edge Hrel Hnd Hin.
  - inversion Hin.
  - cbn [foldl]. apply Forall_cons in Hrel as [Hn Hrel].
    rewrite fmap_cons in Hnd. apply NoDup_cons in Hnd as [Hnot Hnd].
    apply elem_of_cons in Hin as [Heq|Hin].
    + injection Heq as -> ->.
      rewrite jobs_lookup_other.
      * unfold job_step, saved, write. cbn. apply lookup_insert_eq.
      * intros [n' e'] Hj Heq. cbn [fst] in Heq.
        apply join_relative_inj in Heq; [|exact (proj1 (Forall_forall _ _) Hrel _ Hj) | exact Hn].
        subst n'. apply Hnot. apply list_elem_of_fmap. exists (n, e'). split; [reflexivity | exact Hj].
    + apply IH; assumption.
Qed.

Lemma icon_jobs_relative : Forall (fun job : string * Z => starts_with_sep job.1 = false) icon_jobs.
Proof. apply (bool_decide_unpack _). vm_compute. exact I. Qed.

Lemma icon_jobs_names : icon_jobs.*1 = png_names.
Proof. vm_compute. reflexivity. Qed.

Lemma icon_jobs_nodup : NoDup icon_jobs.*1.
Proof. apply (bool_decide_unpack _). vm_compute. exact I. Qed.

Lemma generated_lookup dir w name edge :
  (name, edge) ∈ icon_jobs ->
  files (disk (generated dir w)) !! join dir [name] = Some (Png (canvas edge)).
Proof.
  apply jobs_lookup; [apply icon_jobs_relative | apply icon_jobs_nodup].
Qed.

Lemma job_1x size : size ∈ SIZES -> (icon_name size, size) ∈ icon_jobs.
Proof.
  intros H. apply list_elem_of_In, in_flat_map. exists size.
  split; [now apply list_elem_of_In | now left].
Qed.

Lemma job_2x size :
  size ∈ SIZES -> size <= 512 -> (icon_name_2x size, size * 2) ∈ icon_jobs.
Proof.
  intros H Hle. apply list_elem_of_In, in_flat_map. exists size.
  split; [now apply list_elem_of_In|].
  right. destruct (Z.leb_spec size 512); [now left | lia].
Qed.

(** ** The packaging copies *)

Lemma mapping_src_join dir size :
  mapping_src dir size = join dir [mapping_src_name size].
Proof. unfold mapping_src, mapping_src_name. destruct (512 <? size); reflexivity. Qed.

Lemma mapping_sources_generated :
  Forall (fun m : Z * string => mapping_src_name m.1 ∈ icon_jobs.*1) icon_mappings.
Proof. apply (bool_decide_unpack _). vm_compute. exact I. Qed.

Lemma copy_step_trace dir (l : list (Z * string)) : forall w,
  Forall (fun m => is_Some (files (disk w) !! mapping_src dir m.1)) l ->
  trace (foldl (copy_step dir) w l) =
    trace w ++ map (fun m => Copy (mapping_src dir m.1) (join iconset_tmp [m.2])) l.
Proof.
  induction l as [|m l IH]; intros w H; cbn [foldl map].
  - now rewrite app_nil_r.
  - apply Forall_cons in H as [[f Hf] H].
    assert (Hw : copy_step dir w m =
                 World (write (join iconset_tmp [m.2]) f (disk w))
                       (trace w ++ [Copy (mapping_src dir m.1) (join iconset_tmp [m.2])])).
    { unfold copy_step. now rewrite Hf. }
    rewrite IH.
    + rewrite Hw. cbn [trace]. now rewrite <- app_assoc.
    + rewrite Hw. eapply Forall_impl; [exact H|]. intros m' Hm'. cbn [disk files write].
      apply lookup_insert_is_Some'. now right.
Qed.

Lemma copy_icons_run dir : forall w,
  Forall (fun m => is_Some (files (disk w) !! mapping_src dir m.1)) icon_mappings ->
  copy_icons dir w = (Ok tt, foldl (copy_step dir) w icon_mappings).
Proof.
  unfold copy_icons. generalize icon_mappings as l.
  induction l as [|[size name] l IH]; intros w H; [reflexivity|].
  apply Forall_cons in H as [[f Hf] H]. cbn [fst] in Hf.
  cbn [for_ foldl]. unfold OS.bind at 1, mbind, IO_bind, OS.bind, exists_.
  assert (He : is_Some (files (disk w) !! mapping_src dir size)) by (exists f; exact Hf).
  rewrite (bool_decide_eq_true_2 _ He). cbn [orb].
  unfold copy, copy_step, emit. cbn [fst snd]. rewrite Hf. cbn [disk trace].
  apply IH. eapply Forall_impl; [exact H|]. intros m' Hm'. cbn [disk files write].
  apply lookup_insert_is_Some'. now right.
Qed.

Lemma sources_exist script_dir w :
  let dir := iconset_dir script_dir in
  Forall (fun m : Z * string =>
            is_Some (files (disk (made iconset_tmp
                       (printed (newline +:+ "Creating .icns file...")
                          (updated dir (generated dir (made dir w))))))
                     !! mapping_src dir m.1))
         icon_mappings.
Proof.
  intros dir. eapply Forall_impl; [exact mapping_sources_generated|].
  intros [size name] Hin. cbn [fst] in *.
  apply list_elem_of_fmap in Hin as ([n edge] & Hn & Hin). cbn [fst] in Hn.
  rewrite mapping_src_join, Hn.
  cbn [made printed updated disk files write].
  apply lookup_insert_is_Some'. right.
  rewrite (generated_lookup _ _ _ _ Hin). eexists. reflexivity.
Qed.

Lemma bind_ok {A B} (m : IO A) (k : A -> IO B) w a w' :
  m w = (Ok a, w') -> OS.bind m k w = k a w'.
Proof. unfold OS.bind. now intros ->. Qed.

Lemma makedirs_run path w : makedirs path w = (Ok tt, made path w).
Proof. reflexivity. Qed.

Lemma print_run text w : print text w = (Ok tt, printed text w).
Proof. reflexivity. Qed.

(** The whole driver: it reaches the call of [iconutil] without raising,
    and what follows depends on how that call ends. *)
Lemma main_run (subprocess_run : list string -> fs -> result CompletedProcess * fs)
    script_dir w :
  main subprocess_run script_dir w =
    let w1 := before_iconutil script_dir w in
    match subprocess_run (iconutil_argv script_dir) (disk w1) with
    | (Ok result, d) =>
        (Ok tt,
         World (removed iconset_tmp d)
               (trace w1 ++ [Run (iconutil_argv script_dir);
                             Print (report script_dir result);
                             Rmtree iconset_tmp]))
    | (Raise e, d) =>
        (Raise e, World d (trace w1 ++ [Run (iconutil_argv script_dir)]))
    end.
Proof.
  unfold main, mbind, IO_bind.
  rewrite (bind_ok _ _ _ _ _ (makedirs_run _ _)).
  rewrite (bind_ok _ _ _ _ _ (generate_icons_run _ _)).
  rewrite (bind_ok _ _ _ _ _ (update_contents_run _ _)).
  unfold create_icns, mbind, IO_bind.
  rewrite (bind_ok _ _ _ _ _ (print_run _ _)).
  rewrite (bind_ok _ _ _ _ _ (makedirs_run _ _)).
  rewrite (bind_ok _ _ _ _ _ (copy_icons_run _ _ (sources_exist script_dir w))).
  unfold before_iconutil, iconutil_argv, icns_path, report. cbv zeta.
  set (w1 := foldl _ _ icon_mappings). clearbody w1.
  set (argv := "iconutil" :: _). clearbody argv.
  unfold OS.bind, run.
  destruct (subprocess_run argv (disk w1)) as [[cp|e] d]; [|reflexivity].
  unfold emit. cbn [disk trace].
  destruct (returncode cp =? 0); unfold print, rmtree, emit, removed; cbn [disk trace];
    rewrite <- !app_assoc; reflexivity.
Qed.

(** ** The trace up to the call of [iconutil] *)

Lemma before_iconutil_trace script_dir w :
  let dir := iconset_dir script_dir in
  trace (before_iconutil script_dir w) =
    trace w ++ [Makedirs dir] ++ generated_events dir ++
    [Dump (join dir ["Contents.json"]) manifest;
     Print ("Updated " +:+ join dir ["Contents.json"]);
     Print (newline +:+ "Creating .icns file...");
     Makedirs iconset_tmp] ++ copy_events dir.
Proof.
  intros dir. unfold before_iconutil. fold dir.
  rewrite copy_step_trace by apply sources_exist.
  unfold made at 1, printed, updated. cbn [trace].
  rewrite generated_trace. unfold made. cbn [trace].
  unfold generated_events, copy_events. rewrite <- !app_assoc. reflexivity.
Qed.

Lemma saved_paths_generated dir :
  saved_paths (generated_events dir) = (fun name => join dir [name]) <$> png_names.
Proof.
  rewrite <- icon_jobs_names. unfold generated_events.
  generalize icon_jobs as jobs. induction jobs as [|j jobs IH]; [reflexivity|].
  cbn [flat_map app]. unfold saved_paths in *. cbn [omap list_omap].
  rewrite IH. reflexivity.
Qed.

Lemma saved_paths_copies dir : saved_paths (copy_events dir) = [].
Proof.
  unfold copy_events. generalize icon_mappings as l.
  induction l as [|m l IH]; [reflexivity|]. exact IH.
Qed.

Lemma copies_generated dir : copies (generated_events dir) = [].
Proof.
  unfold generated_events. generalize icon_jobs as jobs.
  induction jobs as [|j jobs IH]; [reflexivity|]. exact IH.
Qed.

Lemma copies_copy_events dir :
  copies (copy_events dir) =
    (fun m : Z * string => (mapping_src dir m.1, join iconset_tmp [m.2])) <$> icon_mappings.
Proof.
  unfold copy_events. generalize icon_mappings as l.
  induction l as [|m l IH]; [reflexivity|].
  cbn [map]. unfold copies in *. cbn [omap list_omap]. rewrite IH. reflexivity.
Qed.

Lemma png_names_relative : Forall (fun name => starts_with_sep name = false) png_names.
Proof. apply (bool_decide_unpack _). vm_compute. exact I. Qed.

Lemma png_names_nodup : NoDup png_names.
Proof. rewrite <- icon_jobs_names. exact icon_jobs_nodup. Qed.

Lemma png_paths_nodup dir : NoDup ((fun name => join dir [name]) <$> png_names).
Proof.
  apply NoDup_fmap_2_strong; [|exact png_names_nodup].
  intros a b Ha Hb. apply join_relative_inj.
  - exact (proj1 (Forall_forall _ _) png_names_relative a Ha).
  - exact (proj1 (Forall_forall _ _) png_names_relative b Hb).
Qed.

(** The saves and the copies of a whole run, however [iconutil] ends. *)
Lemma main_saves_and_copies
    (subprocess_run : list string -> fs -> result CompletedProcess * fs) script_dir w :
  let dir := iconset_dir script_dir in
  let t := trace (main subprocess_run script_dir w).2 in
  saved_paths t = saved_paths (trace w) ++ ((fun name => join dir [name]) <$> png_names) /\
  copies t = copies (trace w) ++
    ((fun m : Z * string => (mapping_src dir m.1, join iconset_tmp [m.2])) <$> icon_mappings).
Proof.
  intros dir t. subst t. rewrite main_run. cbv zeta.
  destruct (subprocess_run _ _) as [[cp|e] d]; cbn [snd trace];
    rewrite before_iconutil_trace; fold dir;
    unfold saved_paths, copies; rewrite !omap_app;
    fold saved_paths; fold copies;
    rewrite saved_paths_generated, saved_paths_copies, copies_generated, copies_copy_events;
    cbn [saved_paths copies omap list_omap]; rewrite ?app_nil_r, ?app_nil_l; split; reflexivity.
Qed.

(** * The driver's claims *)

(** C1, as the code has it.  A run of [main] saves exactly thirteen PNG files
    into the icon-set directory, however [iconutil] ends: two for each of the
    edges 16, 32, 64, 128, 256 and 512, and one for 1024, all at different
    paths. *)
Theorem main_saves_thirteen_pngs
    (subprocess_run : list string -> fs -> result CompletedProcess * fs)
    (script_dir : string) (w : world) :
  let dir := iconset_dir script_dir in
  let pngs :=
    (fun name => join dir [name]) <$>
      ["icon_16x16.png"; "icon_16x16@2x.png"; "icon_32x32.png"; "icon_32x32@2x.png";
       "icon_64x64.png"; "icon_64x64@2x.png"; "icon_128x128.png"; "icon_128x128@2x.png";
       "icon_256x256.png"; "icon_256x256@2x.png"; "icon_512x512.png";
       "icon_512x512@2x.png"; "icon_1024x1024.png"] in
  saved_paths (trace (main subprocess_run script_dir w).2) = saved_paths (trace w) ++ pngs /\
  NoDup pngs /\ length pngs = 13%nat.
Proof.
  intros dir pngs. split; [|split].
  - exact (proj1 (main_saves_and_copies subprocess_run script_dir w)).
  - exact (png_paths_nodup dir).
  - reflexivity.
Qed.

(** C1, as the claim states it, fails: a run saves thirteen PNG files, not
    twelve, [icon_64x64.png] and [icon_64x64@2x.png] among them. *)
Lemma main_saves_the_64_icons :
  let t := trace (main (iconutil_completes (Completed 0 "" "")) "/repo" empty_world).2 in
  length (saved_paths t) <> 12%nat /\
  "/repo/ClaudeMenuBar/ClaudeMenuBar/Assets.xcassets/AppIcon.appiconset/icon_64x64.png"
    ∈ saved_paths t /\
  "/repo/ClaudeMenuBar/ClaudeMenuBar/Assets.xcassets/AppIcon.appiconset/icon_64x64@2x.png"
    ∈ saved_paths t.
Proof.
  intros t. subst t.
  destruct (main_saves_and_copies (iconutil_completes (Completed 0 "" "")) "/repo" empty_world)
    as [Ht _].
  cbv zeta in Ht. rewrite Ht. clear Ht.
  change (saved_paths (trace empty_world)) with (@nil string). rewrite app_nil_l.
  split; [|split].
  - rewrite length_fmap. discriminate.
  - apply list_elem_of_fmap. exists "icon_64x64.png".
    split; [vm_compute; reflexivity|]. apply list_elem_of_In. cbn. tauto.
  - apply list_elem_of_fmap. exists "icon_64x64@2x.png".
    split; [vm_compute; reflexivity|]. apply list_elem_of_In. cbn. tauto.
Qed.

Lemma mapping_src_small dir size :
  size <= 512 -> mapping_src dir size = join dir [icon_name size].
Proof.
  intros H. unfold mapping_src. destruct (Z.ltb_spec 512 size); [lia | reflexivity].
Qed.

(** C2.  For the 1024 slot of the packaging step, destination
    [icon_512x512@2x.png], the file copied is [icon_512x512@2x.png] of the
    icon-set directory and not the rendered [icon_1024x1024.png]; for every
    entry of size at most 512 it is [icon_{size}x{size}.png]; and a run of
    [main] makes exactly these ten copies, in the order of the mapping. *)
Theorem packaging_reuses_512_2x
    (subprocess_run : list string -> fs -> result CompletedProcess * fs)
    (script_dir : string) (w : world) :
  let dir := iconset_dir script_dir in
  (1024, "icon_512x512@2x.png") ∈ icon_mappings /\
  mapping_src dir 1024 = join dir ["icon_512x512@2x.png"] /\
  mapping_src dir 1024 <> join dir [icon_name 1024] /\
  (forall size name, (size, name) ∈ icon_mappings -> size <= 512 ->
     mapping_src dir size = join dir [icon_name size]) /\
  copies (trace (main subprocess_run script_dir w).2) =
    copies (trace w) ++
    ((fun m : Z * string => (mapping_src dir m.1, join iconset_tmp [m.2])) <$> icon_mappings).
Proof.
  intros dir. split; [|split; [|split; [|split]]].
  - apply list_elem_of_In. cbn. tauto.
  - reflexivity.
  - change (mapping_src dir 1024) with (join dir ["icon_512x512@2x.png"]).
    intros H. apply join_relative_inj in H; [|reflexivity|vm_compute; reflexivity].
    vm_compute in H. discriminate H.
  - intros size name _ Hle. now apply mapping_src_small.
  - exact (proj2 (main_saves_and_copies subprocess_run script_dir w)).
Qed.

Lemma packaging_reuses_512_2x_witness :
  mapping_src (iconset_dir "/repo") 512 = join (iconset_dir "/repo") [icon_name 512].
Proof.
  apply (proj1 (proj2 (proj2 (proj2
    (packaging_reuses_512_2x (iconutil_completes (Completed 0 "" "")) "/repo" empty_world))))
    512 "icon_512x512.png").
  - apply list_elem_of_In. cbn. tauto.
  - lia.
Defined.

Lemma write_icon_set_run script_dir w :
  write_icon_set script_dir w =
    (Ok tt, updated (iconset_dir script_dir)
              (generated (iconset_dir script_dir) (made (iconset_dir script_dir) w))).
Proof.
  unfold write_icon_set, mbind, IO_bind.
  rewrite (bind_ok _ _ _ _ _ (makedirs_run _ _)).
  rewrite (bind_ok _ _ _ _ _ (generate_icons_run _ _)).
  apply update_contents_run.
Qed.

Lemma contents_is_no_png : "Contents.json" ∉ icon_jobs.*1.
Proof. apply (bool_decide_unpack _). vm_compute. exact I. Qed.

Lemma updated_lookup dir w name edge :
  (name, edge) ∈ icon_jobs ->
  files (disk (updated dir (generated dir w))) !! join dir [name] = Some (Png (canvas edge)).
Proof.
  intros Hin. unfold updated, write. cbn [disk files].
  rewrite lookup_insert_ne.
  - now apply generated_lookup.
  - intros Heq. apply join_relative_inj in Heq; [|reflexivity|].
    + apply contents_is_no_png. rewrite Heq.
      apply list_elem_of_fmap. exists (name, edge). split; [reflexivity | exact Hin].
    + exact (proj1 (Forall_forall _ _) icon_jobs_relative _ Hin).
Qed.

Lemma manifest_files_generated :
  Forall (fun e => filename e ∈ icon_jobs.*1) (images manifest).
Proof. apply (bool_decide_unpack _). vm_compute. exact I. Qed.

Lemma name_has_job name : name ∈ icon_jobs.*1 -> exists edge, (name, edge) ∈ icon_jobs.
Proof.
  intros H. apply list_elem_of_fmap in H as ([n e] & -> & H). exists e. exact H.
Qed.

(** C3.  The manifest the driver writes to [Contents.json] has exactly ten
    entries; once the icons are generated and the manifest is written, every
    entry's file name is a PNG file of the icon-set directory; and the entries
    are a strict subset of the generated files: the renders saved as
    [icon_64x64.png] and [icon_1024x1024.png] are on disk and have no entry. *)
Theorem manifest_entries_exist (script_dir : string) (w : world) :
  let dir := iconset_dir script_dir in
  let r := write_icon_set script_dir w in
  r.1 = Ok tt /\
  files (disk r.2) !! join dir ["Contents.json"] = Some (Json manifest) /\
  length (images manifest) = 10%nat /\
  (forall e, e ∈ images manifest ->
     exists img, files (disk r.2) !! join dir [filename e] = Some (Png img)) /\
  (forall name, name ∈ ["icon_64x64.png"; "icon_1024x1024.png"] ->
     (exists img, files (disk r.2) !! join dir [name] = Some (Png img)) /\
     name ∉ filename <$> images manifest).
Proof.
  intros dir r. subst r. rewrite write_icon_set_run. fold dir. cbn [fst snd].
  split; [reflexivity|]. split; [|split; [reflexivity|split]].
  - unfold updated, write. cbn [disk files]. apply lookup_insert_eq.
  - intros e He.
    destruct (name_has_job _ (proj1 (Forall_forall _ _) manifest_files_generated e He))
      as [edge Hjob].
    exists (canvas edge). now apply updated_lookup.
  - intros name Hname. split.
    + assert (Hn : name ∈ icon_jobs.*1).
      { rewrite icon_jobs_names. apply list_elem_of_In in Hname. apply list_elem_of_In.
        cbn in *. intuition. }
      destruct (name_has_job _ Hn) as [edge Hjob].
      exists (canvas edge). now apply updated_lookup.
    + apply list_elem_of_In in Hname. cbn in Hname.
      destruct Hname as [<-|[<-|[]]]; apply (bool_decide_unpack _); vm_compute; exact I.
Qed.

Lemma manifest_entries_exist_witness :
  exists img,
    files (disk (write_icon_set "/repo" empty_world).2)
      !! join (iconset_dir "/repo") ["icon_512x512@2x.png"] = Some (Png img).
Proof.
  apply (proj1 (proj2 (proj2 (proj2 (manifest_entries_exist "/repo" empty_world))))
           (Entry "icon_512x512@2x.png" "mac" "2x" "512x512")).
  apply list_elem_of_In. cbn. tauto.
Defined.

Lemma removed_lookup path d p :
  under path p = true -> files (removed path d) !! p = None /\ p ∉ dirs (removed path d).
Proof.
  intros Hu. unfold removed. cbn [files dirs]. split.
  - apply map_lookup_filter_None. right. intros x _. cbn. rewrite Hu. discriminate.
  - intros Hin. apply elem_of_filter in Hin as [Hn _]. rewrite Hu in Hn. discriminate Hn.
Qed.

(** C4.  When [iconutil] completes, whatever its exit status, [main] raises
    nothing and returns normally; it prints the command's stderr text after
    [iconutil error: ] when the status is not zero and the output path after
    [Created ] when it is zero; and in both cases the last thing it does is
    remove the temporary directory, of which nothing is left on the disk. *)
Theorem iconutil_failure_is_reported
    (subprocess_run : list string -> fs -> result CompletedProcess * fs)
    (script_dir : string) (w : world) (result : CompletedProcess) (d : fs) :
  subprocess_run (iconutil_argv script_dir) (disk (before_iconutil script_dir w))
    = (Ok result, d) ->
  exists w',
    main subprocess_run script_dir w = (Ok tt, w') /\
    trace w' =
      trace (before_iconutil script_dir w) ++
      [Run (iconutil_argv script_dir);
       Print (if returncode result =? 0
              then "Created " +:+ icns_path script_dir
              else "iconutil error: " +:+ stderr result);
       Rmtree iconset_tmp] /\
    disk w' = removed iconset_tmp d /\
    forall p, under iconset_tmp p = true ->
      files (disk w') !! p = None /\ p ∉ dirs (disk w').
Proof.
  intros Hrun. rewrite main_run. cbv zeta. rewrite Hrun.
  eexists. split; [reflexivity|]. cbn [trace disk].
  split; [reflexivity|]. split; [reflexivity|].
  intros p Hp. now apply removed_lookup.
Qed.

Lemma iconutil_failure_is_reported_witness :
  exists w',
    main (iconutil_completes (Completed 1 "" "no such iconset")) "/repo" empty_world
      = (Ok tt, w') /\
    trace w' =
      trace (before_iconutil "/repo" empty_world) ++
      [Run (iconutil_argv "/repo");
       Print "iconutil error: no such iconset";
       Rmtree iconset_tmp] /\
    disk w' = removed iconset_tmp (disk (before_iconutil "/repo" empty_world)) /\
    forall p, under iconset_tmp p = true ->
      files (disk w') !! p = None /\ p ∉ dirs (disk w').
Proof.
  apply (iconutil_failure_is_reported
           (iconutil_completes (Completed 1 "" "no such iconset")) "/repo" empty_world
           (Completed 1 "" "no such iconset")).
  reflexivity.
Defined.

(** When the command cannot be started, [subprocess.run] raises, [main]
    lets the exception through and the cleanup is not reached. *)
Lemma iconutil_missing_aborts
    (subprocess_run : list string -> fs -> result CompletedProcess * fs)
    (script_dir : string) (w : world) (e : exn) (d : fs) :
  subprocess_run (iconutil_argv script_dir) (disk (before_iconutil script_dir w))
    = (Raise e, d) ->
  main subprocess_run script_dir w =
    (Raise e, World d (trace (before_iconutil script_dir w) ++ [Run (iconutil_argv script_dir)])).
Proof. intros Hrun. rewrite main_run. cbv zeta. now rewrite Hrun. Qed.

(** C10.  For every size of the list that is at most 512, the [@2x] file the
    loop writes holds the canvas of [create_icon] at the doubled edge; hence,
    whenever the doubled edge is itself in the list, the [@2x] file and the
    1x file of the doubled edge hold the same image, pixel for pixel under
    any rasteriser. *)
Theorem retina_file_is_the_double_edge_render (dir : string) (w : world) (N : Z) :
  N ∈ SIZES -> N <= 512 ->
  let w' := (generate_icons dir w).2 in
  exists img,
    create_icon_canvas (N * 2) = Ok img /\
    files (disk w') !! join dir [icon_name_2x N] = Some (Png img) /\
    (N * 2 ∈ SIZES ->
     files (disk w') !! join dir [icon_name (N * 2)] = Some (Png img) /\
     files (disk w') !! join dir [icon_name_2x N] =
       files (disk w') !! join dir [icon_name (N * 2)]).
Proof.
  intros HN Hle w'. subst w'. rewrite generate_icons_run. cbn [snd].
  exists (canvas (N * 2)).
  assert (H2x := generated_lookup dir w _ _ (job_2x N HN Hle)).
  split; [now apply canvas_ok, doubles_requested|]. split; [exact H2x|].
  intros H2N. assert (H1x := generated_lookup dir w _ _ (job_1x (N * 2) H2N)).
  split; [exact H1x | now rewrite H2x, H1x].
Qed.

Lemma retina_file_is_the_double_edge_render_witness :
  let w' := (generate_icons (iconset_dir "/repo") empty_world).2 in
  files (disk w') !! join (iconset_dir "/repo") [icon_name_2x 16] =
    files (disk w') !! join (iconset_dir "/repo") [icon_name (16 * 2)].
Proof.
  intros w'.
  destruct (retina_file_is_the_double_edge_render (iconset_dir "/repo") empty_world 16)
    as (img & _ & _ & H).
  - apply list_elem_of_In. cbn. tauto.
  - lia.
  - apply H. apply list_elem_of_In. cbn. tauto.
Defined.

(** C8.  Rendering is deterministic: two calls of [create_icon] with the same
    edge, in any two worlds and for any two output paths, end the same way,
    and when they return, the two files saved hold images whose pixel buffers
    are identical under any rasteriser. *)
Theorem rendering_is_deterministic (size : Z) (path1 path2 : string) (w1 w2 : world) :
  let r1 := create_icon size path1 w1 in
  let r2 := create_icon size path2 w2 in
  r1.1 = r2.1 /\
  (r1.1 = Ok tt ->
   exists img1 img2,
     files (disk r1.2) !! path1 = Some (Png img1) /\
     files (disk r2.2) !! path2 = Some (Png img2) /\
     forall covers, tobytes covers img1 = tobytes covers img2).
Proof.
  intros r1 r2. subst r1 r2.
  destruct (create_icon_canvas size) as [img|e] eqn:E.
  - rewrite !(create_icon_run _ _ _ _ E). cbn [fst snd]. split; [reflexivity|].
    intros _. exists img, img. unfold saved, write. cbn [disk files].
    rewrite !lookup_insert_eq. repeat split.
  - rewrite !(create_icon_raises _ _ _ _ E). cbn [fst]. split; [reflexivity|].
    intros H. discriminate H.
Qed.

Lemma rendering_is_deterministic_witness :
  exists img1 img2,
    files (disk (create_icon 16 "a.png" empty_world).2) !! "a.png" = Some (Png img1) /\
    files (disk (create_icon 16 "b.png" (World (Fs ∅ {["/tmp"]}) [Print "x"])).2) !! "b.png"
      = Some (Png img2) /\
    forall covers, tobytes covers img1 = tobytes covers img2.
Proof.
  apply (proj2 (rendering_is_deterministic 16 "a.png" "b.png" empty_world
                  (World (Fs ∅ {["/tmp"]}) [Print "x"]))).
  rewrite (create_icon_run 16 "a.png" (canvas 16) empty_world); [reflexivity|].
  apply canvas_ok. apply list_elem_of_In. vm_compute. tauto.
Defined.

(** * Pixels of the rendered icon *)

Lemma icons_checked : forallb icon_checks SIZES = true.
Proof. vm_compute. reflexivity. Qed.

Lemma alpha_ink c : alpha (ink c) = 255.
Proof. destruct c as [[r g] b]. reflexivity. Qed.

Section Pixels.

Variable covers : shape -> Z -> Z -> bool.

Lemma paint_keeps_opaque x y px c :
  alpha px = 255 -> alpha (paint covers x y px c) = 255.
Proof. intros H. unfold paint. destruct (covers _ _ _); [apply alpha_ink | exact H]. Qed.

Lemma foldl_paint_opaque x y calls : forall px,
  alpha px = 255 -> alpha (foldl (paint covers x y) px calls) = 255.
Proof.
  induction calls as [|c calls IH]; intros px H; [exact H|].
  cbn [foldl]. apply IH, paint_keeps_opaque, H.
Qed.

Lemma foldl_paint_covered x y calls : forall px,
  Exists (fun c => covers (dc_shape c) x y = true) calls ->
  alpha (foldl (paint covers x y) px calls) = 255.
Proof.
  induction calls as [|c calls IH]; intros px H; [inversion H|].
  cbn [foldl]. apply Exists_cons in H as [H|H].
  - apply foldl_paint_opaque. unfold paint. rewrite H. apply alpha_ink.
  - now apply IH.
Qed.

Lemma foldl_paint_untouched x y calls : forall px,
  Forall (fun c => covers (dc_shape c) x y = false) calls ->
  foldl (paint covers x y) px calls = px.
Proof.
  induction calls as [|c calls IH]; intros px H; [reflexivity|].
  apply Forall_cons in H as [Hc H]. cbn [foldl]. unfold paint at 2. rewrite Hc. now apply IH.
Qed.

Hypothesis pillow : pillow_contract covers.

Lemma outside_untouched x y (calls : list draw_call) :
  forallb (fun c => negb (may_cover (dc_shape c) x y)) calls = true ->
  Forall (fun c => covers (dc_shape c) x y = false) calls.
Proof.
  intros H. apply Forall_forall. intros c Hc.
  apply list_elem_of_In in Hc.
  pose proof (proj1 (forallb_forall _ _) H c Hc) as Hn.
  cbv beta in Hn. destruct (covers (dc_shape c) x y) eqn:E; [|reflexivity].
  apply (covers_within _ pillow) in E. rewrite E in Hn. discriminate Hn.
Qed.

Lemma inside_covered x y (calls : list draw_call) :
  existsb (fun c => must_cover (dc_shape c) x y) calls = true ->
  Exists (fun c => covers (dc_shape c) x y = true) calls.
Proof.
  intros H. apply existsb_exists in H as (c & Hc & Hm).
  apply Exists_exists. exists c. split; [now apply list_elem_of_In|].
  cbv beta in Hm. now apply (covers_bands _ pillow).
Qed.

End Pixels.

Lemma forallb_and4 {A} (f g h k : A -> bool) (l : list A) :
  forallb (fun a => f a && g a && h a && k a) l = true ->
  forallb f l = true /\ forallb g l = true /\ forallb h l = true /\ forallb k l = true.
Proof.
  induction l as [|a l IH]; [now repeat split|].
  cbn [forallb]. rewrite !andb_true_iff. intros [[[[Hf Hg] Hh] Hk] Hl].
  destruct (IH Hl) as (? & ? & ? & ?). repeat split; assumption.
Qed.

(** C7.  Under the contract taken for granted of Pillow's rasteriser, for
    every edge N of the size list the four corner pixels of the canvas of
    [create_icon] have alpha 0 and the centre pixel [(N / 2, N / 2)] has a
    nonzero alpha. *)
Theorem corners_transparent_centre_opaque
    (covers : shape -> Z -> Z -> bool) (N : Z) :
  pillow_contract covers -> N ∈ SIZES ->
  exists img,
    create_icon_canvas N = Ok img /\
    alpha (getpixel covers img 0 0) = 0 /\
    alpha (getpixel covers img 0 (N - 1)) = 0 /\
    alpha (getpixel covers img (N - 1) 0) = 0 /\
    alpha (getpixel covers img (N - 1) (N - 1)) = 0 /\
    alpha (getpixel covers img (N / 2) (N / 2)) <> 0.
Proof.
  intros pillow HN. apply list_elem_of_In in HN.
  pose proof (proj1 (forallb_forall _ _) icons_checked N HN) as H.
  unfold icon_checks in H.
  destruct (create_icon_canvas N) as [img|] eqn:E; [|discriminate H].
  apply andb_true_iff in H as [Hout Hin].
  apply create_icon_canvas_calls in E as (_ & _ & _ & _ & _ & _ & _ & _ & _ & _ & _ & _ & _ & _ & Hbg).
  apply forallb_and4 in Hout as (H00 & H01 & H10 & H11).
  exists img. split; [reflexivity|]. unfold getpixel.
  rewrite !(foldl_paint_untouched covers _ _ _ _ (outside_untouched covers pillow _ _ _ H00)).
  rewrite !(foldl_paint_untouched covers _ _ _ _ (outside_untouched covers pillow _ _ _ H01)).
  rewrite !(foldl_paint_untouched covers _ _ _ _ (outside_untouched covers pillow _ _ _ H10)).
  rewrite !(foldl_paint_untouched covers _ _ _ _ (outside_untouched covers pillow _ _ _ H11)).
  rewrite Hbg. repeat (split; [reflexivity|]).
  rewrite (foldl_paint_covered covers _ _ _ _ (inside_covered covers pillow _ _ _ Hin)).
  discriminate.
Qed.

(** The outer bound is itself a rasteriser that honours the contract. *)
Lemma float_floor_le_ceil f : float_floor f <= float_ceil f.
Proof.
  unfold float_floor, float_ceil. destruct (Prim2SF f) as [| | |sgn m e]; try lia.
  destruct sgn, ((0 <=? e) || (Z.pos m mod 2 ^ (- e) =? 0)); lia.
Qed.

Lemma num_floor_le_ceil n : num_floor n <= num_ceil n.
Proof. destruct n; [cbn; lia | apply float_floor_le_ceil]. Qed.

Lemma must_cover_may_cover sh x y : must_cover sh x y = true -> may_cover sh x y = true.
Proof.
  destruct sh as [[[[a b] c] d] r| | |]; try discriminate.
  unfold must_cover, may_cover, in_box, in_corner.
  pose proof (num_floor_le_ceil a). pose proof (num_floor_le_ceil b).
  pose proof (num_floor_le_ceil c). pose proof (num_floor_le_ceil d).
  rewrite !andb_true_iff, orb_true_iff, !andb_true_iff, !Z.leb_le.
  intros [[[[[Hr Hx0] Hx1] Hy0] Hy1] Hband].
  split.
  - lia.
  - apply negb_true_iff.
    repeat match goal with
           | |- context [?u <? ?v] => destruct (Z.ltb_spec u v)
           end; cbn [andb orb]; try reflexivity; lia.
Qed.

Lemma may_cover_honours_contract : pillow_contract may_cover.
Proof. split; [trivial | exact must_cover_may_cover]. Qed.

Lemma corners_transparent_centre_opaque_witness :
  exists img,
    create_icon_canvas 16 = Ok img /\
    alpha (getpixel may_cover img 0 0) = 0 /\
    alpha (getpixel may_cover img 0 (16 - 1)) = 0 /\
    alpha (getpixel may_cover img (16 - 1) 0) = 0 /\
    alpha (getpixel may_cover img (16 - 1) (16 - 1)) = 0 /\
    alpha (getpixel may_cover img (16 / 2) (16 / 2)) <> 0.
Proof.
  apply (corners_transparent_centre_opaque may_cover 16).
  - exact may_cover_honours_contract.
  - apply list_elem_of_In. cbn. tauto.
Defined.

(** * More facts about the renderer *)

Lemma draw_arcs_rows offsets : forall img x0 x1 top_y bh i10 lc lw img',
  draw_arcs img offsets x0 x1 top_y bh i10 lc lw = Ok img' ->
  exists rows,
    arc_rows offsets top_y bh i10 = Ok rows /\
    length rows = length offsets /\
    im_calls img' = im_calls img ++ arcs_on x0 x1 lw lc rows.
Proof.
  induction offsets as [|o rest IH]; intros img x0 x1 top_y bh i10 lc lw img' H.
  - injection H as <-. exists []. cbn. now rewrite app_nil_r.
  - cbn [draw_arcs] in H. bind_inv H.
    apply IH in H as (rows & Hr & Hl & Hc).
    eexists (_ :: rows). split; [|split].
    + cbn [arc_rows]. unfold mbind, result_bind, Py.bind.
      repeat (match goal with E : ?x = Ok _ |- context [?x] => rewrite E end;
              cbv beta iota).
      reflexivity.
    + cbn. now rewrite Hl.
    + rewrite Hc. unfold arc, draw. cbn [im_calls arcs_on map fst snd].
      rewrite <- app_assoc. reflexivity.
Qed.

(** The ten calls of [draw_brain_icon] and what they share. *)
Lemma draw_brain_icon_shapes img size color img' :
  draw_brain_icon img size color = Ok img' ->
  exists (padding i5 i2 : Z) (cx top bottom lx1 rx0 : float) (stem : box)
         (fy0 fy1 : float) (rows : list (float * float)),
    im_calls img' =
      im_calls img ++
      [DrawCall (Ellipse (Int padding, Float top, Float lx1, Float bottom)) color;
       DrawCall (Ellipse (Float rx0, Float top, Int (size - padding), Float bottom)) color;
       DrawCall (Ellipse stem) color;
       DrawCall (Line (Float cx, Float fy0, Float cx, Float fy1) (Z.max 1 i2))
                CLAUDE_ORANGE] ++
      arcs_on (Int (padding + i5)) (Float rx0) (Z.max 1 i2) CLAUDE_ORANGE rows ++
      arcs_on (Float lx1) (Int (size - padding - i5)) (Z.max 1 i2) CLAUDE_ORANGE rows /\
    length rows = 3%nat.
Proof.
  intros H. unfold draw_brain_icon in H. bind_inv H.
  apply draw_arcs_rows in H as (rows2 & Hr2 & Hl2 & Hc2).
  match goal with E : draw_arcs _ _ _ _ _ _ _ _ _ = Ok _ |- _ =>
    apply draw_arcs_rows in E as (rows1 & Hr1 & Hl1 & Hc1) end.
  rewrite Hr1 in Hr2. injection Hr2 as <-.
  do 11 eexists. exists rows1. split; [|exact Hl1].
  rewrite Hc2, Hc1. unfold line, ellipse, draw. cbn [im_calls].
  rewrite <- !app_assoc. reflexivity.
Qed.

Lemma int_arguments_checked : forallb int_arguments_check (seqZ 1 2048) = true.
Proof. vm_compute. reflexivity. Qed.

Lemma boxes_checked : forallb boxes_check (seqZ 1 2048) = true.
Proof. vm_compute. reflexivity. Qed.

Lemma geometry_checked : forallb geometry_check (seqZ 1 173 ++ requested_edges) = true.
Proof. vm_compute. reflexivity. Qed.



(** X2.  Whenever [create_icon] gets as far as saving, its canvas holds
    eleven calls in this order: the orange rounded rectangle over the whole
    canvas, three white ellipses, the fissure and six arcs.  The glyph is laid
    out in mirror image: the two hemispheres have the same top and bottom, the
    left one starts [padding] from the left edge and the right one ends
    [padding] from the right edge, the fissure is vertical, the arcs of the
    two hemispheres lie on the same three rows, and the arcs of each
    hemisphere are inset by the same amount on the outside and reach the inner
    edge of the other hemisphere's ellipse. *)
Theorem canvas_layout_is_mirrored (size : Z) (img : Image) :
  create_icon_canvas size = Ok img ->
  exists (r padding inset w : Z) (cx top bottom lx1 rx0 : float) (stem : box)
         (fy0 fy1 : float) (rows : list (float * float)),
    corner_radius size = Ok r /\
    length rows = 3%nat /\
    im_calls img =
      [DrawCall (RoundedRectangle (Int 0, Int 0, Int (size - 1), Int (size - 1)) r)
                CLAUDE_ORANGE;
       DrawCall (Ellipse (Int padding, Float top, Float lx1, Float bottom)) WHITE;
       DrawCall (Ellipse (Float rx0, Float top, Int (size - padding), Float bottom)) WHITE;
       DrawCall (Ellipse stem) WHITE;
       DrawCall (Line (Float cx, Float fy0, Float cx, Float fy1) w) CLAUDE_ORANGE] ++
      arcs_on (Int (padding + inset)) (Float rx0) w CLAUDE_ORANGE rows ++
      arcs_on (Float lx1) (Int (size - padding - inset)) w CLAUDE_ORANGE rows.
Proof.
  intros H. unfold create_icon_canvas in H. bind_inv H.
  apply draw_brain_icon_shapes in H
    as (padding & i5 & i2 & cx & top & bottom & lx1 & rx0 & stem & fy0 & fy1 & rows & Hc & Hl).
  exists a, padding, i5, (Z.max 1 i2), cx, top, bottom, lx1, rx0, stem, fy0, fy1, rows.
  split; [reflexivity|]. split; [exact Hl|]. exact Hc.
Qed.

Lemma canvas_layout_is_mirrored_witness :
  exists (r padding inset w : Z) (cx top bottom lx1 rx0 : float) (stem : box)
         (fy0 fy1 : float) (rows : list (float * float)),
    corner_radius 16 = Ok r /\
    length rows = 3%nat /\
    im_calls (canvas 16) =
      [DrawCall (RoundedRectangle (Int 0, Int 0, Int (16 - 1), Int (16 - 1)) r)
                CLAUDE_ORANGE;
       DrawCall (Ellipse (Int padding, Float top, Float lx1, Float bottom)) WHITE;
       DrawCall (Ellipse (Float rx0, Float top, Int (16 - padding), Float bottom)) WHITE;
       DrawCall (Ellipse stem) WHITE;
       DrawCall (Line (Float cx, Float fy0, Float cx, Float fy1) w) CLAUDE_ORANGE] ++
      arcs_on (Int (padding + inset)) (Float rx0) w CLAUDE_ORANGE rows ++
      arcs_on (Float lx1) (Int (16 - padding - inset)) w CLAUDE_ORANGE rows.
Proof. apply (canvas_layout_is_mirrored 16 (canvas 16)). vm_compute. reflexivity. Defined.

(** X3.  For every edge from 1 to 2048 the renderer returns, and every
    integer it hands to Pillow is the floor its float arithmetic stands for:
    the corner radius is [11 * N / 50], the left hemisphere starts at [N / 5]
    and the right one ends at [N - N / 5], the strokes are
    [max 1 (N / 50)] wide, and the arcs start at [N / 5 + N / 20] on the left
    and end at [N - N / 5 - N / 20] on the right. *)
Theorem integer_arguments_are_floors (N : Z) :
  1 <= N <= 2048 ->
  exists img,
    create_icon_canvas N = Ok img /\
    int_arguments img = int_arguments_exact N.
Proof.
  intros HN.
  assert (Hin : In N (seqZ 1 2048)) by (apply list_elem_of_In, elem_of_seqZ; lia).
  pose proof (proj1 (forallb_forall _ _) int_arguments_checked N Hin) as H.
  unfold int_arguments_check in H.
  destruct (create_icon_canvas N) as [img|]; [|discriminate H].
  exists img. split; [reflexivity|]. exact (bool_decide_eq_true_1 _ H).
Qed.

Lemma integer_arguments_are_floors_witness :
  exists img,
    create_icon_canvas 100 = Ok img /\
    int_arguments img = int_arguments_exact 100.
Proof. apply (integer_arguments_are_floors 100). lia. Defined.

(** X4.  For every edge the driver requests, and for every edge from 1 to
    173, the boxes of the eleven calls are exactly those of integer
    arithmetic: with [p = N / 5], [h = 17 * (N - 2 * p) / 20] and
    [top = N / 2 - h / 2 + N / 20], the hemispheres span [top] to [top + h],
    the stem and the fissure are placed with [N / 10], [3 * N / 20] and
    [3 * N / 25], and the arcs lie [h / 4], [h / 2] and [7 * h / 10] below
    [top]. *)
Theorem canvas_has_integer_geometry (N : Z) :
  N ∈ requested_edges \/ 1 <= N <= 173 ->
  exists img,
    create_icon_canvas N = Ok img /\
    boxes_are (im_calls img) (boxes_exact N) = true.
Proof.
  intros HN.
  assert (Hin : In N (seqZ 1 173 ++ requested_edges)).
  { apply in_or_app. destruct HN as [HN|HN].
    - right. now apply list_elem_of_In.
    - left. apply list_elem_of_In, elem_of_seqZ. lia. }
  pose proof (proj1 (forallb_forall _ _) geometry_checked N Hin) as H.
  unfold geometry_check in H.
  destruct (create_icon_canvas N) as [img|]; [|discriminate H].
  exists img. split; [reflexivity | exact H].
Qed.

Lemma canvas_has_integer_geometry_witness :
  exists img,
    create_icon_canvas 1024 = Ok img /\
    boxes_are (im_calls img) (boxes_exact 1024) = true.
Proof.
  apply (canvas_has_integer_geometry 1024). left.
  apply list_elem_of_In. vm_compute. tauto.
Defined.

(** X5.  For every edge from 1 to 2048, every box the renderer hands to
    Pillow has its second corner at or after its first, so that no call is
    refused for an inverted box, and lies within the canvas: all its
    coordinates are between 0 and the edge. *)
Theorem boxes_are_ordered_and_within (N : Z) :
  1 <= N <= 2048 ->
  exists img,
    create_icon_canvas N = Ok img /\
    forall c, c ∈ im_calls img ->
      ordered (shape_box (dc_shape c)) = true /\
      within N (shape_box (dc_shape c)) = true.
Proof.
  intros HN.
  assert (Hin : In N (seqZ 1 2048)) by (apply list_elem_of_In, elem_of_seqZ; lia).
  pose proof (proj1 (forallb_forall _ _) boxes_checked N Hin) as H.
  unfold boxes_check in H.
  destruct (create_icon_canvas N) as [img|]; [|discriminate H].
  exists img. split; [reflexivity|].
  intros c Hc. apply list_elem_of_In in Hc.
  pose proof (proj1 (forallb_forall _ _) H c Hc) as Hb. cbv beta in Hb.
  now apply andb_true_iff in Hb.
Qed.

Lemma boxes_are_ordered_and_within_witness :
  exists img,
    create_icon_canvas 1 = Ok img /\
    forall c, c ∈ im_calls img ->
      ordered (shape_box (dc_shape c)) = true /\
      within 1 (shape_box (dc_shape c)) = true.
Proof. apply (boxes_are_ordered_and_within 1). lia. Defined.

(** * More facts about the driver *)

(** ** Paths *)

Lemma string_app_length (a b : string) :
  String.length (a +:+ b) = (String.length a + String.length b)%nat.
Proof.
  induction a as [|x a IH]; [reflexivity|].
  change (S (String.length (a +:+ b)) = S (String.length a + String.length b)).
  now rewrite IH.
Qed.

Lemma prefix_app (a : string) : forall b c,
  String.prefix a b = true -> String.prefix a (b +:+ c) = true.
Proof.
  induction a as [|x a IH]; intros b c H.
  - destruct (b +:+ c); reflexivity.
  - destruct b as [|y b]; [discriminate H|].
    change (String y b +:+ c) with (String y (b +:+ c)).
    cbn [String.prefix] in *. destruct (ascii_dec x y); [now apply IH | discriminate H].
Qed.

Lemma prefix_app_le (a : string) : forall b c,
  (String.length a <= String.length b)%nat ->
  String.prefix a (b +:+ c) = String.prefix a b.
Proof.
  induction a as [|x a IH]; intros b c Hl.
  - destruct (b +:+ c), b; reflexivity.
  - destruct b as [|y b]; [cbn in Hl; lia|].
    change (String y b +:+ c) with (String y (b +:+ c)).
    cbn [String.prefix]. destruct (ascii_dec x y); [|reflexivity].
    apply IH. cbn in Hl. lia.
Qed.

Lemma suffixb_refl (s : string) : suffixb s s = true.
Proof. destruct s; cbn [suffixb]; now rewrite bool_decide_eq_true_2. Qed.

Lemma suffixb_app (p s : string) : suffixb s (p +:+ s) = true.
Proof.
  induction p as [|x p IH]; [apply suffixb_refl|].
  change (String x p +:+ s) with (String x (p +:+ s)).
  cbn [suffixb]. rewrite IH. apply orb_true_r.
Qed.

Lemma ends_with_sep_app (a : string) (c : ascii) (b : string) :
  ends_with_sep (a +:+ String c b) = ends_with_sep (String c b).
Proof.
  induction a as [|x a IH]; [reflexivity|].
  change (String x a +:+ String c b) with (String x (a +:+ String c b)).
  rewrite <- IH. destruct a; reflexivity.
Qed.

Lemma dir_prefix_app (a : string) (c : ascii) (b : string) :
  ends_with_sep (String c b) = false ->
  dir_prefix (a +:+ String c b) = (a +:+ String c b) +:+ "/".
Proof.
  intros H. unfold dir_prefix. rewrite ends_with_sep_app, H.
  rewrite bool_decide_eq_false_2; [reflexivity|].
  intros Heq. apply (f_equal String.length) in Heq.
  rewrite string_app_length in Heq. cbn in Heq. lia.
Qed.

(** The icon-set directory ends with its two last components. *)
Lemma iconset_dir_parts script_dir :
  exists Q, iconset_dir script_dir = Q +:+ "Assets.xcassets/AppIcon.appiconset".
Proof.
  unfold iconset_dir, join. cbn [foldl].
  set (y := join2 (join2 script_dir "ClaudeMenuBar") "ClaudeMenuBar").
  change (join2 y "Assets.xcassets") with (join y ["Assets.xcassets"]).
  rewrite join_relative by reflexivity.
  change (join2 ?x "AppIcon.appiconset") with (join x ["AppIcon.appiconset"]).
  rewrite join_relative by reflexivity.
  rewrite dir_prefix_app by reflexivity.
  exists (dir_prefix y). rewrite <- !string_app_assoc. reflexivity.
Qed.

Lemma iconset_dir_length script_dir :
  (34 <= String.length (iconset_dir script_dir))%nat.
Proof.
  destruct (iconset_dir_parts script_dir) as [Q ->].
  rewrite string_app_length. cbn. lia.
Qed.

Lemma iconset_file script_dir name :
  starts_with_sep name = false ->
  join (iconset_dir script_dir) [name] = iconset_dir script_dir +:+ "/" +:+ name.
Proof.
  intros H. rewrite join_relative by exact H.
  destruct (iconset_dir_parts script_dir) as [Q ->].
  rewrite dir_prefix_app by reflexivity. now rewrite <- string_app_assoc.
Qed.

Lemma icon_set_names_relative :
  Forall (fun name => starts_with_sep name = false) icon_set_names.
Proof. apply (bool_decide_unpack _). vm_compute. exact I. Qed.

Lemma clash_free_checked : clash_free = true.
Proof. vm_compute. reflexivity. Qed.

(** The temporary icon set and the icon set have no path in common. *)
Lemma tmp_not_icon script_dir name n :
  name ∈ icon_mappings.*2 -> n ∈ icon_set_names ->
  join iconset_tmp [name] <> join (iconset_dir script_dir) [n].
Proof.
  intros Hname Hn Heq.
  rewrite (iconset_file _ n) in Heq
    by exact (proj1 (Forall_forall _ _) icon_set_names_relative n Hn).
  destruct (iconset_dir_parts script_dir) as [Q HQ]. rewrite HQ in Heq.
  rewrite <- string_app_assoc in Heq.
  pose proof clash_free_checked as H. unfold clash_free in H.
  apply list_elem_of_In in Hname, Hn.
  pose proof (proj1 (forallb_forall _ _) H name Hname) as H1. cbv beta in H1.
  pose proof (proj1 (forallb_forall _ _) H1 n Hn) as H2. cbv beta in H2.
  rewrite Heq, suffixb_app in H2. discriminate H2.
Qed.

(** A file of the icon set lies under the temporary directory exactly when
    the icon-set directory does. *)
Lemma under_tmp_icon script_dir name :
  starts_with_sep name = false ->
  under iconset_tmp (join (iconset_dir script_dir) [name]) =
  under iconset_tmp (iconset_dir script_dir).
Proof.
  intros H. rewrite iconset_file by exact H. unfold under.
  pose proof (iconset_dir_length script_dir) as Hl.
  rewrite !bool_decide_eq_false_2.
  - cbn [orb].
    destruct (String.prefix (iconset_tmp +:+ "/") (iconset_dir script_dir)) eqn:E.
    + now apply prefix_app.
    + rewrite prefix_app_le; [exact E|].
      replace (String.length (iconset_tmp +:+ "/")) with 27%nat by reflexivity. lia.
  - intros Heq. rewrite Heq in Hl.
    replace (String.length iconset_tmp) with 26%nat in Hl by reflexivity. lia.
  - intros Heq. apply (f_equal String.length) in Heq.
    rewrite string_app_length in Heq.
    replace (String.length iconset_tmp) with 26%nat in Heq by reflexivity. lia.
Qed.

(** ** The disk when [iconutil] is called *)

Lemma copy_steps_dirs dir (l : list (Z * string)) : forall w,
  dirs (disk (foldl (copy_step dir) w l)) = dirs (disk w).
Proof.
  induction l as [|m l IH]; intros w; cbn [foldl]; [reflexivity|].
  rewrite IH. unfold copy_step. destruct (files (disk w) !! _); reflexivity.
Qed.

Lemma copy_steps_lookup_other dir (l : list (Z * string)) : forall w p,
  (forall m, m ∈ l -> join iconset_tmp [m.2] <> p) ->
  files (disk (foldl (copy_step dir) w l)) !! p = files (disk w) !! p.
Proof.
  induction l as [|m l IH]; intros w p H; cbn [foldl]; [reflexivity|].
  rewrite IH by (intros m' Hm'; apply H; now constructor).
  unfold copy_step. destruct (files (disk w) !! _); [|reflexivity].
  cbn [disk files write]. apply lookup_insert_ne, H. constructor.
Qed.

Lemma copy_steps_lookup dir (l : list (Z * string)) : forall w size name,
  NoDup l.*2 ->
  Forall (fun m : Z * string => starts_with_sep m.2 = false) l ->
  (forall m, m ∈ l -> files (disk w) !! mapping_src dir m.1 = Some (Png (canvas m.1))) ->
  (forall m m', m ∈ l -> m' ∈ l -> join iconset_tmp [m.2] <> mapping_src dir m'.1) ->
  (size, name) ∈ l ->
  files (disk (foldl (copy_step dir) w l)) !! join iconset_tmp [name] =
    Some (Png (canvas size)).
Proof.
  induction l as [|[s n] l IH]; intros w size name Hnd Hrel Hsrc Hclash Hin.
  - inversion Hin.
  - cbn [foldl]. rewrite fmap_cons in Hnd. apply NoDup_cons in Hnd as [Hnot Hnd].
    apply Forall_cons in Hrel as [Hn Hrel]. cbn [snd] in Hn, Hnot.
    assert (Hw : copy_step dir w (s, n) =
                 World (write (join iconset_tmp [n]) (Png (canvas s)) (disk w))
                       (trace w ++ [Copy (mapping_src dir s) (join iconset_tmp [n])])).
    { pose proof (Hsrc (s, n) ltac:(constructor)) as Hs. cbn [fst] in Hs.
      unfold copy_step. cbn [fst snd]. rewrite Hs. reflexivity. }
    rewrite Hw. apply elem_of_cons in Hin as [Heq|Hin].
    + injection Heq as -> ->.
      rewrite copy_steps_lookup_other.
      * cbn [disk files write]. apply lookup_insert_eq.
      * intros [s' n'] Hm' Heq. cbn [snd] in Heq.
        apply join_relative_inj in Heq;
          [|exact (proj1 (Forall_forall _ _) Hrel _ Hm') | exact Hn].
        subst n'. apply Hnot. apply list_elem_of_fmap. exists (s', n). now split.
    + apply IH; try assumption.
      * intros m Hm. cbn [disk files write]. rewrite lookup_insert_ne.
        -- apply Hsrc. now constructor.
        -- apply (Hclash (s, n) m); [constructor | now constructor].
      * intros m m' Hm Hm'. apply Hclash; now constructor.
Qed.

Lemma icon_mappings_nodup : NoDup icon_mappings.*2.
Proof. apply (bool_decide_unpack _). vm_compute. exact I. Qed.

Lemma icon_mappings_relative :
  Forall (fun m : Z * string => starts_with_sep m.2 = false) icon_mappings.
Proof. apply (bool_decide_unpack _). vm_compute. exact I. Qed.

Lemma icon_mappings_jobs :
  Forall (fun m : Z * string => (mapping_src_name m.1, m.1) ∈ icon_jobs) icon_mappings.
Proof. apply (bool_decide_unpack _). vm_compute. exact I. Qed.

Lemma icon_mappings_requested :
  Forall (fun m : Z * string => m.1 ∈ requested_edges) icon_mappings.
Proof. apply (bool_decide_unpack _). vm_compute. exact I. Qed.

Lemma icon_jobs_requested :
  Forall (fun job : string * Z => job.2 ∈ requested_edges) icon_jobs.
Proof. apply (bool_decide_unpack _). vm_compute. exact I. Qed.

Lemma png_is_icon_set_name name : name ∈ icon_jobs.*1 -> name ∈ icon_set_names.
Proof.
  rewrite icon_jobs_names. intros H. unfold icon_set_names.
  apply elem_of_app. now left.
Qed.

Lemma contents_is_icon_set_name : "Contents.json" ∈ icon_set_names.
Proof. unfold icon_set_names. apply elem_of_app. right. constructor. Qed.

Lemma job_is_icon_set_name name edge : (name, edge) ∈ icon_jobs -> name ∈ icon_set_names.
Proof.
  intros H. apply png_is_icon_set_name, list_elem_of_fmap. exists (name, edge). now split.
Qed.

Lemma mapping_is_tmp_name size name : (size, name) ∈ icon_mappings -> name ∈ icon_mappings.*2.
Proof. intros H. apply list_elem_of_fmap. exists (size, name). now split. Qed.

(** The files of the temporary icon set: every slot holds the render of
    the slot's edge. *)
Lemma before_iconutil_tmp script_dir w size name :
  (size, name) ∈ icon_mappings ->
  files (disk (before_iconutil script_dir w)) !! join iconset_tmp [name] =
    Some (Png (canvas size)).
Proof.
  intros Hin. unfold before_iconutil. cbv zeta.
  apply copy_steps_lookup;
    [exact icon_mappings_nodup | exact icon_mappings_relative | | | exact Hin].
  - intros [s n] Hm. cbn [fst]. cbn [made printed disk files].
    rewrite mapping_src_join. apply updated_lookup.
    exact (proj1 (Forall_forall _ _) icon_mappings_jobs _ Hm).
  - intros [s n] [s' n'] Hm Hm'. cbn [fst snd]. rewrite mapping_src_join.
    apply tmp_not_icon; [now apply mapping_is_tmp_name with s|].
    apply png_is_icon_set_name.
    exact (proj1 (Forall_forall _ _) mapping_sources_generated _ Hm').
Qed.

(** The packaging copies leave the icon set alone. *)
Lemma before_iconutil_icon script_dir w n :
  n ∈ icon_set_names ->
  files (disk (before_iconutil script_dir w)) !! join (iconset_dir script_dir) [n] =
  files (disk (updated (iconset_dir script_dir)
                 (generated (iconset_dir script_dir) (made (iconset_dir script_dir) w))))
    !! join (iconset_dir script_dir) [n].
Proof.
  intros Hn. unfold before_iconutil. cbv zeta.
  rewrite copy_steps_lookup_other; [reflexivity|].
  intros [s name] Hm. cbn [snd]. apply tmp_not_icon; [|exact Hn].
  now apply mapping_is_tmp_name with s.
Qed.

Lemma before_iconutil_png script_dir w name edge :
  (name, edge) ∈ icon_jobs ->
  files (disk (before_iconutil script_dir w)) !! join (iconset_dir script_dir) [name] =
    Some (Png (canvas edge)).
Proof.
  intros Hin. rewrite before_iconutil_icon by now apply job_is_icon_set_name with edge.
  now apply updated_lookup.
Qed.

Lemma before_iconutil_contents script_dir w :
  files (disk (before_iconutil script_dir w))
    !! join (iconset_dir script_dir) ["Contents.json"] = Some (Json manifest).
Proof.
  rewrite before_iconutil_icon by exact contents_is_icon_set_name.
  unfold updated, write. cbn [disk files]. apply lookup_insert_eq.
Qed.

Lemma before_iconutil_dirs script_dir w :
  dirs (disk (before_iconutil script_dir w)) =
    {[iconset_tmp]} ∪ ({[iconset_dir script_dir]} ∪ dirs (disk w)).
Proof.
  unfold before_iconutil. cbv zeta. rewrite copy_steps_dirs.
  cbn [made printed updated write disk dirs]. rewrite generated_dirs. reflexivity.
Qed.


Lemma removed_lookup_other path d p :
  under path p = false -> files (removed path d) !! p = files d !! p.
Proof.
  intros Hu. unfold removed. cbn [files].
  destruct (files d !! p) as [f|] eqn:E.
  - apply map_lookup_filter_Some. split; [exact E|]. cbn. now rewrite Hu.
  - apply map_lookup_filter_None. now left.
Qed.

Lemma under_tmp_copy name :
  starts_with_sep name = false -> under iconset_tmp (join iconset_tmp [name]) = true.
Proof.
  intros H. rewrite join_relative by exact H. unfold under.
  apply orb_true_iff. right.
  change (dir_prefix iconset_tmp) with (iconset_tmp +:+ "/").
  apply prefix_app. clear. vm_compute. reflexivity.
Qed.

(** What the run up to the call of [iconutil] prints and removes. *)
Lemma printed_lines_generated dir :
  printed_lines (generated_events dir) =
    (fun job : string * Z => created job.2 (join dir [job.1])) <$> icon_jobs.
Proof.
  unfold generated_events. generalize icon_jobs as jobs.
  induction jobs as [|j jobs IH]; [reflexivity|].
  cbn [flat_map app]. unfold printed_lines in *. cbn [omap list_omap fmap list_fmap].
  rewrite IH. reflexivity.
Qed.

Lemma printed_lines_copies dir : printed_lines (copy_events dir) = [].
Proof.
  unfold copy_events. generalize icon_mappings as l.
  induction l as [|m l IH]; [reflexivity|]. exact IH.
Qed.

Lemma rmtrees_generated dir : rmtrees (generated_events dir) = [].
Proof.
  unfold generated_events. generalize icon_jobs as jobs.
  induction jobs as [|j jobs IH]; [reflexivity|]. exact IH.
Qed.

Lemma rmtrees_copies dir : rmtrees (copy_events dir) = [].
Proof.
  unfold copy_events. generalize icon_mappings as l.
  induction l as [|m l IH]; [reflexivity|]. exact IH.
Qed.

Lemma before_iconutil_printed script_dir w :
  printed_lines (trace (before_iconutil script_dir w)) =
    printed_lines (trace w) ++
    ((fun job : string * Z => created job.2 (join (iconset_dir script_dir) [job.1]))
       <$> icon_jobs) ++
    ["Updated " +:+ join (iconset_dir script_dir) ["Contents.json"];
     newline +:+ "Creating .icns file..."].
Proof.
  rewrite before_iconutil_trace. cbv zeta.
  unfold printed_lines. rewrite !omap_app. fold printed_lines.
  rewrite printed_lines_generated, printed_lines_copies.
  cbn [printed_lines omap list_omap]. rewrite ?app_nil_r, ?app_nil_l. reflexivity.
Qed.

Lemma before_iconutil_rmtrees script_dir w :
  rmtrees (trace (before_iconutil script_dir w)) = rmtrees (trace w).
Proof.
  rewrite before_iconutil_trace. cbv zeta.
  unfold rmtrees. rewrite !omap_app. fold rmtrees.
  rewrite rmtrees_generated, rmtrees_copies.
  cbn [rmtrees omap list_omap]. rewrite ?app_nil_r, ?app_nil_l. reflexivity.
Qed.

(** * Further properties of the driver *)

Lemma write_icon_set_lookup_other script_dir w p :
  (forall n, n ∈ icon_set_names -> join (iconset_dir script_dir) [n] <> p) ->
  files (disk (updated (iconset_dir script_dir)
                 (generated (iconset_dir script_dir) (made (iconset_dir script_dir) w)))) !! p =
  files (disk w) !! p.
Proof.
  intros H. unfold updated, write. cbn [disk files].
  rewrite lookup_insert_ne by (apply H, contents_is_icon_set_name).
  unfold generated. rewrite jobs_lookup_other; [reflexivity|].
  intros [name edge] Hj. cbn [fst]. apply H. now apply job_is_icon_set_name with edge.
Qed.

Lemma write_icon_set_lookup script_dir n :
  n ∈ icon_set_names ->
  exists f, forall w',
    files (disk (updated (iconset_dir script_dir)
                   (generated (iconset_dir script_dir) (made (iconset_dir script_dir) w'))))
      !! join (iconset_dir script_dir) [n] = Some f.
Proof.
  intros Hn. unfold icon_set_names in Hn. apply elem_of_app in Hn as [Hn|Hn].
  - rewrite <- icon_jobs_names in Hn. apply name_has_job in Hn as [edge Hj].
    exists (Png (canvas edge)). intros w'. now apply updated_lookup.
  - apply list_elem_of_singleton in Hn as ->.
    exists (Json manifest). intros w'. unfold updated, write. cbn [disk files].
    apply lookup_insert_eq.
Qed.



(** X7.  Writing the icon set is idempotent on the disk: a second run over
    the result of a first one overwrites the fourteen files with the same
    contents and leaves the disk as the first run left it. *)
Theorem write_icon_set_is_idempotent (script_dir : string) (w : world) :
  disk (write_icon_set script_dir (write_icon_set script_dir w).2).2 =
  disk (write_icon_set script_dir w).2.
Proof.
  rewrite !write_icon_set_run. cbn [snd].
  set (dir := iconset_dir script_dir).
  set (w1 := updated dir (generated dir (made dir w))).
  assert (Hd : dirs (disk (updated dir (generated dir (made dir w1)))) = dirs (disk w1)).
  { unfold updated at 1, write. cbn [disk dirs]. rewrite generated_dirs.
    unfold made. cbn [disk dirs]. subst w1.
    unfold updated, write. cbn [disk dirs]. rewrite generated_dirs.
    unfold made. cbn [disk dirs].
    apply set_eq. intros x. rewrite !elem_of_union. tauto. }
  assert (Hf : files (disk (updated dir (generated dir (made dir w1)))) = files (disk w1)).
  { apply map_eq. intros p.
    destruct (decide (p ∈ (fun name => join dir [name]) <$> icon_set_names)) as [Hin|Hout].
    - apply list_elem_of_fmap in Hin as (n & -> & Hn).
      destruct (write_icon_set_lookup script_dir n Hn) as [f Hf].
      fold dir in Hf. subst w1. now rewrite !Hf.
    - apply write_icon_set_lookup_other. intros n Hn Heq. apply Hout.
      apply list_elem_of_fmap. exists n. now split. }
  destruct (disk (updated dir (generated dir (made dir w1)))) as [f1 d1].
  destruct (disk w1) as [f2 d2]. cbn [files dirs] in Hf, Hd. now subst.
Qed.

Lemma printed_lines_app a b : printed_lines (a ++ b) = printed_lines a ++ printed_lines b.
Proof. apply omap_app. Qed.

Lemma rmtrees_app a b : rmtrees (a ++ b) = rmtrees a ++ rmtrees b.
Proof. apply omap_app. Qed.



(** X9.  When no command can be started, so that [subprocess.run] raises and
    the disk stays as it is, [main] lets the exception through: the attempt to
    run [iconutil] is the last thing it does, nothing is removed, and the
    temporary directory is left behind with its ten files. *)
Theorem no_cleanup_when_iconutil_cannot_start
    (subprocess_run : list string -> fs -> result CompletedProcess * fs)
    (script_dir : string) (w : world) (e : exn) :
  (forall argv d, subprocess_run argv d = (Raise e, d)) ->
  exists w',
    main subprocess_run script_dir w = (Raise e, w') /\
    last (trace w') = Some (Run (iconutil_argv script_dir)) /\
    rmtrees (trace w') = rmtrees (trace w) /\
    iconset_tmp ∈ dirs (disk w') /\
    forall size name, (size, name) ∈ icon_mappings ->
      exists img,
        create_icon_canvas size = Ok img /\
        files (disk w') !! join iconset_tmp [name] = Some (Png img).
Proof.
  intros Hrun. rewrite main_run. cbv zeta.
  pose proof (before_iconutil_rmtrees script_dir w) as Hrm.
  pose proof (before_iconutil_dirs script_dir w) as Hdirs.
  pose proof (before_iconutil_tmp script_dir w) as Htmp.
  set (w1 := before_iconutil script_dir w) in *. clearbody w1.
  rewrite Hrun.
  eexists. split; [reflexivity|]. cbn [trace disk].
  split; [apply last_snoc|]. split; [|split].
  - rewrite rmtrees_app, Hrm. apply app_nil_r.
  - rewrite Hdirs. apply elem_of_union. left. now apply elem_of_singleton.
  - intros size name Hin. exists (canvas size). split.
    + apply canvas_ok. exact (proj1 (Forall_forall _ _) icon_mappings_requested _ Hin).
    + apply Htmp. exact Hin.
Qed.

Lemma no_cleanup_when_iconutil_cannot_start_witness :
  exists w',
    main (fun _ d => (Raise FileNotFoundError, d)) "/repo" empty_world
      = (Raise FileNotFoundError, w') /\
    last (trace w') = Some (Run (iconutil_argv "/repo")) /\
    rmtrees (trace w') = rmtrees (trace empty_world) /\
    iconset_tmp ∈ dirs (disk w') /\
    forall size name, (size, name) ∈ icon_mappings ->
      exists img,
        create_icon_canvas size = Ok img /\
        files (disk w') !! join iconset_tmp [name] = Some (Png img).
Proof.
  apply (no_cleanup_when_iconutil_cannot_start
           (fun _ d => (Raise FileNotFoundError, d)) "/repo" empty_world FileNotFoundError).
  intros argv d. reflexivity.
Defined.

(** X10.  When the icon-set directory does not lie under the temporary
    directory and [iconutil] completes without touching the files of the icon
    set, a run of [main] ends with the whole icon set on the disk: the
    thirteen renders, each file holding the render of its edge, and the
    manifest; and none of the ten temporary copies is left. *)
Theorem icon_set_survives_cleanup
    (subprocess_run : list string -> fs -> result CompletedProcess * fs)
    (script_dir : string) (w : world) :
  under iconset_tmp (iconset_dir script_dir) = false ->
  (forall d, exists result d',
     subprocess_run (iconutil_argv script_dir) d = (Ok result, d') /\
     forall name, name ∈ icon_set_names ->
       files d' !! join (iconset_dir script_dir) [name] =
       files d !! join (iconset_dir script_dir) [name]) ->
  exists w',
    main subprocess_run script_dir w = (Ok tt, w') /\
    (forall name edge, (name, edge) ∈ icon_jobs ->
       exists img,
         create_icon_canvas edge = Ok img /\
         files (disk w') !! join (iconset_dir script_dir) [name] = Some (Png img)) /\
    files (disk w') !! join (iconset_dir script_dir) ["Contents.json"] = Some (Json manifest) /\
    (forall size name, (size, name) ∈ icon_mappings ->
       files (disk w') !! join iconset_tmp [name] = None).
Proof.
  intros Hout Hrun. rewrite main_run. cbv zeta.
  destruct (Hrun (disk (before_iconutil script_dir w))) as (result & d' & -> & Hkeep).
  eexists. split; [reflexivity|]. cbn [disk].
  assert (Hsafe : forall n, n ∈ icon_set_names ->
            files (removed iconset_tmp d') !! join (iconset_dir script_dir) [n] =
            files (disk (before_iconutil script_dir w)) !! join (iconset_dir script_dir) [n]).
  { intros n Hn. rewrite removed_lookup_other; [now apply Hkeep|].
    rewrite under_tmp_icon; [exact Hout|].
    exact (proj1 (Forall_forall _ _) icon_set_names_relative n Hn). }
  split; [|split].
  - intros name edge Hin. exists (canvas edge). split.
    + apply canvas_ok. exact (proj1 (Forall_forall _ _) icon_jobs_requested _ Hin).
    + rewrite Hsafe by now apply job_is_icon_set_name with edge.
      apply before_iconutil_png. exact Hin.
  - rewrite Hsafe by exact contents_is_icon_set_name. apply before_iconutil_contents.
  - intros size name Hin. apply removed_lookup, under_tmp_copy.
    exact (proj1 (Forall_forall _ _) icon_mappings_relative _ Hin).
Qed.

Lemma icon_set_survives_cleanup_witness :
  exists w',
    main (iconutil_completes (Completed 0 "" "")) "/repo" empty_world = (Ok tt, w') /\
    (forall name edge, (name, edge) ∈ icon_jobs ->
       exists img,
         create_icon_canvas edge = Ok img /\
         files (disk w') !! join (iconset_dir "/repo") [name] = Some (Png img)) /\
    files (disk w') !! join (iconset_dir "/repo") ["Contents.json"] = Some (Json manifest) /\
    (forall size name, (size, name) ∈ icon_mappings ->
       files (disk w') !! join iconset_tmp [name] = None).
Proof.
  apply (icon_set_survives_cleanup (iconutil_completes (Completed 0 "" "")) "/repo" empty_world).
  - vm_compute. reflexivity.
  - intros d. exists (Completed 0 "" ""), d. split; reflexivity.
Defined.

(** X11.  When the icon-set directory lies under the temporary directory,
    as it does for a script kept in [/tmp/ClaudeMenuBar.iconset], and
    [iconutil] completes, the cleanup removes what the run has made: none of
    the fourteen files of the icon set is on the disk when [main] returns. *)
Theorem icon_set_under_temp_is_deleted
    (subprocess_run : list string -> fs -> result CompletedProcess * fs)
    (script_dir : string) (w : world) :
  under iconset_tmp (iconset_dir script_dir) = true ->
  (forall d, exists result d',
     subprocess_run (iconutil_argv script_dir) d = (Ok result, d')) ->
  exists w',
    main subprocess_run script_dir w = (Ok tt, w') /\
    (iconset_dir script_dir ∉ dirs (disk w')) /\
    forall name, name ∈ icon_set_names ->
      files (disk w') !! join (iconset_dir script_dir) [name] = None.
Proof.
  intros Hin Hrun. rewrite main_run. cbv zeta.
  destruct (Hrun (disk (before_iconutil script_dir w))) as (result & d' & ->).
  eexists. split; [reflexivity|]. cbn [disk]. split.
  - now apply removed_lookup.
  - intros name Hname. apply removed_lookup.
    rewrite under_tmp_icon; [exact Hin|].
    exact (proj1 (Forall_forall _ _) icon_set_names_relative name Hname).
Qed.

Lemma icon_set_under_temp_is_deleted_witness :
  exists w',
    main (iconutil_completes (Completed 0 "" "")) "/tmp/ClaudeMenuBar.iconset" empty_world
      = (Ok tt, w') /\
    (iconset_dir "/tmp/ClaudeMenuBar.iconset" ∉ dirs (disk w')) /\
    forall name, name ∈ icon_set_names ->
      files (disk w') !! join (iconset_dir "/tmp/ClaudeMenuBar.iconset") [name] = None.
Proof.
  apply (icon_set_under_temp_is_deleted (iconutil_completes (Completed 0 "" ""))
           "/tmp/ClaudeMenuBar.iconset" empty_world).
  - vm_compute. reflexivity.
  - intros d. exists (Completed 0 "" ""), d. reflexivity.
Defined.

(** X12.  The packaging loop copies only what exists: when none of its
    source files is on the disk, it raises nothing, makes no copy and leaves
    the disk and the output as they were. *)
Theorem copy_icons_skips_missing_sources (dir : string) (w : world) :
  (forall m, m ∈ icon_mappings ->
     files (disk w) !! mapping_src dir m.1 = None /\
     mapping_src dir m.1 ∉ dirs (disk w)) ->
  copy_icons dir w = (Ok tt, w).
Proof.
  unfold copy_icons. generalize icon_mappings as l.
  induction l as [|[size name] l IH]; intros H; [reflexivity|].
  destruct (H (size, name)) as [Hf Hd]; [constructor|]. cbn [fst] in Hf, Hd.
  cbn [for_]. unfold OS.bind at 1, mbind, IO_bind, OS.bind, exists_.
  rewrite Hf. rewrite (bool_decide_eq_false_2 _ Hd).
  rewrite bool_decide_eq_false_2 by (intros [x Hx]; discriminate Hx).
  cbn [orb]. unfold mret, IO_ret, OS.ret.
  apply IH. intros m Hm. apply H. now constructor.
Qed.

Lemma copy_icons_skips_missing_sources_witness :
  copy_icons "/nowhere" empty_world = (Ok tt, empty_world).
Proof.
  apply (copy_icons_skips_missing_sources "/nowhere" empty_world).
  intros m _. split; [apply lookup_empty | apply not_elem_of_empty].
Defined.

(** X13.  A run of [main] prints one line for each of the thirteen renders,
    in the order of the loop and with the edge actually rendered, so that the
    line of an [@2x] file announces the doubled size; then the line of the
    manifest and the line that opens the packaging; and last, when
    [iconutil] has completed, one line that reports its outcome, and nothing
    when it could not be started. *)
Theorem main_prints_its_progress
    (subprocess_run : list string -> fs -> result CompletedProcess * fs)
    (script_dir : string) (w : world) :
  exists tail,
    printed_lines (trace (main subprocess_run script_dir w).2) =
      printed_lines (trace w) ++
      ((fun job : string * Z =>
          "Created " +:+ str job.2 +:+ "x" +:+ str job.2 +:+ " icon: " +:+
          join (iconset_dir script_dir) [job.1]) <$> icon_jobs) ++
      ["Updated " +:+ join (iconset_dir script_dir) ["Contents.json"];
       newline +:+ "Creating .icns file..."] ++ tail /\
    match (main subprocess_run script_dir w).1 with
    | Ok _ =>
        exists result,
          tail = [if returncode result =? 0
                  then "Created " +:+ join script_dir ["ClaudeMenuBar.icns"]
                  else "iconutil error: " +:+ stderr result]
    | Raise _ => tail = []
    end.
Proof.
  rewrite main_run. cbv zeta.
  destruct (subprocess_run _ _) as [[result|e] d]; cbn [fst snd trace].
  - exists [report script_dir result]. split; [|exists result; reflexivity].
    rewrite printed_lines_app, before_iconutil_printed.
    rewrite <- !app_assoc. reflexivity.
  - exists []. split; [|reflexivity].
    rewrite printed_lines_app, before_iconutil_printed.
    rewrite <- !app_assoc. reflexivity.
Qed.
